(** * audimeta-splitter: a shallow embedding of the splitter and its client

    The development follows [audimeta_splitter/audio_splitter.py] and
    [audimeta_splitter/audimeta_client.py].  Python strings are sequences of
    Unicode code points, dictionaries with literal keys are finite maps, and
    the collaborators the program talks to (the file system, mutagen, ffmpeg,
    the catalogue service and the user at the prompt) are a [World] of
    answers; the program itself threads a state made of the set of existing
    paths and the log of the calls it issued. *)

From stdpp Require Import gmap strings list fin_maps sorting.
From Stdlib Require Import ZArith NArith QArith Ascii DecimalString.
From Stdlib Require DecimalPos.

Local Open Scope Z_scope.
Local Open Scope string_scope.
Local Open Scope list_scope.

(** ** Python strings *)

Module PyStr.

(** A [str] is a list of code points. *)
Abbreviation pystr := (list N).

(** An ASCII literal of the source, as a [str]. *)
Fixpoint lit (s : string) : pystr :=
  match s with
  | EmptyString => []
  | String a r => N_of_ascii a :: lit r
  end.

(** The code points for which [str.isspace] holds; [str.strip()] without an
    argument removes exactly these. *)
Definition whitespace : list N :=
  [9; 10; 11; 12; 13; 28; 29; 30; 31; 32; 133; 160; 5760;
   8192; 8193; 8194; 8195; 8196; 8197; 8198; 8199; 8200; 8201; 8202;
   8232; 8233; 8239; 8287; 12288]%N.

Definition isspace (c : N) : bool := bool_decide (c ∈ whitespace).

Fixpoint lstrip (s : pystr) : pystr :=
  match s with
  | [] => []
  | c :: r => if isspace c then lstrip r else s
  end.

Definition rstrip (s : pystr) : pystr := reverse (lstrip (reverse s)).

Definition strip (s : pystr) : pystr := rstrip (lstrip s).

(** [str(n)] and [f"{n}"] for an [int]. *)
Definition decimal (z : Z) : pystr := lit (NilZero.string_of_int (Z.to_int z)).

(** [f"{i:02d}"] for a non-negative [int]: zero padding up to width two. *)
Definition format_02d (i : nat) : pystr :=
  let d := decimal (Z.of_nat i) in
  replicate (2 - length d) 48%N ++ d.

(** [s.replace(old, new)] for a one-character [old]. *)
Definition replace_char (old : N) (new : pystr) (s : pystr) : pystr :=
  flat_map (λ c, if bool_decide (c = old) then new else [c]) s.

(** [s.lower()], on the ASCII letters. The only use is the test
    [f.lower().endswith('.mp3')]; no code point outside ASCII lowers to one of
    the four characters of that suffix, so the test needs no more. *)
Definition lower_char (c : N) : N :=
  if ((65 <=? c) && (c <=? 90))%N then (c + 32)%N else c.

Definition lower (s : pystr) : pystr := lower_char <$> s.

Definition endswith (s suffix : pystr) : bool :=
  bool_decide (drop (length s - length suffix) s = suffix).

Definition startswith (s prefix : pystr) : bool :=
  bool_decide (take (length prefix) s = prefix).

(** Comparison of two [str], code point by code point, as [sorted] uses it. *)
Fixpoint str_leb (a b : pystr) : bool :=
  match a, b with
  | [], _ => true
  | _ :: _, [] => false
  | x :: a', y :: b' => if (x <? y)%N then true else if (y <? x)%N then false else str_leb a' b'
  end.

(** [os.path.join(a, b)] of [posixpath]. *)
Definition path_join (a b : pystr) : pystr :=
  if startswith b (lit "/") then b
  else if bool_decide (a = []) || endswith a (lit "/") then a ++ b
  else a ++ lit "/" ++ b.

End PyStr.
Import PyStr.

(** ** Python floats *)

Module PyFloat.

Local Open Scope Z_scope.

(** A [float] is a binary64 number: a mantissa of 53 bits times a power of
    two. It is given here by its exact value, a rational, and an operation
    on floats is the exact operation followed by the rounding to the nearest
    float, ties to the even mantissa. The exponent is not bounded here: the
    rounding is that of binary64 for magnitudes from 2^-1022 up to 2^1024.
    The division of two [int] checks the upper end; the lengths of audio
    files and their sums stay far inside. *)

(** [2 ** k], and 1 for a negative [k]. *)
Definition pow2 (k : Z) : Z := 2 ^ Z.max 0 k.

(** [n / d] rounded to the nearest integer, ties to even, for [0 ≤ n] and
    [0 < d]. *)
Definition round_half_even (n d : Z) : Z :=
  let q := n / d in
  let r := n mod d in
  if 2 * r <? d then q
  else if d <? 2 * r then q + 1
  else if Z.even q then q else q + 1.

(** The exponent of the leading bit of [n / d], for [0 < n] and [0 < d]. *)
Definition exponent (n d : Z) : Z :=
  let k := Z.log2 n - Z.log2 d in
  if d * pow2 k <=? n * pow2 (- k) then k else k - 1.

(** The float nearest to [q], as a mantissa [m] and a shift [s]: the float
    is [m / 2 ** s]. The mantissa has 53 bits, or 54 when the rounding
    carries. *)
Definition nearest_float (q : Q) : Z * Z :=
  let n := Z.abs (Qnum q) in
  let d := Z.pos (Qden q) in
  if n =? 0 then (0, 0)
  else
    let shift := 52 - exponent n d in
    (Z.sgn (Qnum q) * round_half_even (n * pow2 shift) (d * pow2 (- shift)), shift).

Definition float_of_Q (q : Q) : Q :=
  let '(m, shift) := nearest_float q in
  Qred (m * pow2 (- shift) # Z.to_pos (pow2 shift)).

(** [a + b] and [a / b] on floats. *)
Definition float_add (a b : Q) : Q := float_of_Q (a + b).
Definition float_div (a b : Q) : Q := float_of_Q (a / b).

(** [int(x)] for a float: the truncation towards zero, which is exact. *)
Definition int_of_Q (q : Q) : Z := Z.quot (Qnum q) (Z.pos (Qden q)).

(** [sys.float_info.max] is the largest float below [2 ** 1024]. *)
Definition float_overflow (q : Q) : bool :=
  2 ^ 1024 * Z.pos (Qden q) <=? Z.abs (Qnum q).

End PyFloat.
Import PyFloat.

(** ** [AudioSplitter.sanitize_filename] *)

(** [invalid_chars]: the nine characters less-than, greater-than, colon,
    double quote, slash, backslash, vertical bar, question mark, asterisk. *)
Definition invalid_chars : pystr := lit "<>:" ++ [34%N] ++ lit "/\|?*".

Definition sanitize_filename (filename : pystr) : pystr :=
  let filename := filter (λ c, c ∉ invalid_chars) filename in
  let filename := strip filename in
  if (200 <? length filename)%nat then take 200 filename else filename.

(** The output name of chapter [i]: [f"{i:02d}_{safe_title}.mp3"]. *)
Definition chapter_filename (i : nat) (safe_title : pystr) : pystr :=
  format_02d i ++ lit "_" ++ safe_title ++ lit ".mp3".


(** ** Values, exceptions and the outside world *)

(** The scalar values a decoded JSON field holds: [None], a [bool], an [int]
    or a [str]. Arrays, objects and non-integral numbers as field values are
    outside the model. *)
Inductive pyval :=
| PNone
| PBool (b : bool)
| PInt (z : Z)
| PStr (s : pystr).

#[global] Instance pyval_eq_dec : EqDecision pyval.
Proof. solve_decision. Defined.

(** A dictionary with literal keys, read with [d.get(key, default)]. *)
Abbreviation dict := (gmap string pyval).

(** [str(v)] *)
Definition py_str (v : pyval) : pystr :=
  match v with
  | PNone => lit "None"
  | PBool true => lit "True"
  | PBool false => lit "False"
  | PInt z => decimal z
  | PStr s => s
  end.

(** [a or b] on two [str]. *)
Definition str_or (a b : pystr) : pystr := if bool_decide (a = []) then b else a.

(** The exceptions the program meets. A [RequestException] of [requests]
    carries a response (an HTTP error status) or none (no connection, or, in
    [requests] from 2.27 on, a body that does not decode). *)
Inductive exn :=
| TypeError
| KeyError
| IndexError
| ValueError
| OverflowError
| AttributeError
| OSError
| FileNotFoundError
| CalledProcessError
| MutagenError
| RequestException (has_response : bool).

#[global] Instance exn_eq_dec : EqDecision exn.
Proof. solve_decision. Defined.

Inductive result (A : Type) :=
| Ok (a : A)
| Raise (e : exn).
Arguments Ok {A} a.
Arguments Raise {A} e.

(** A candidate object of the search endpoint, decoded: each field is
    optional, [authors] and [genres] are lists of objects with an optional
    [name]. *)
Record Book := {
  book_title : option pystr;
  book_authors : option (list (option pystr));
  book_releaseDate : option pystr;
  book_genres : option (list (option pystr));
  book_asin : option pystr;
}.

#[global] Instance Book_eq_dec : EqDecision Book.
Proof. solve_decision. Defined.

(** What [MP3(path)] of mutagen gives for a readable file: the tag container
    (absent, or a map from frame identifier to the text of the frame) and
    [info.length], the float of the seconds of audio, by its exact value.
    A length is bounded by the size of the file, and so are the sums of
    lengths: they stay inside the exponent range of binary64. *)
Record mp3 := {
  mp3_tags : option (gmap string pystr);
  mp3_length : Q;
}.

(** What [requests.get], [raise_for_status] and [response.json] give on the
    search endpoint. The request fails with a [RequestException], which
    carries the response (an HTTP error status) or none (no connection). Or
    the body does not decode: [response.json] raises a [JSONDecodeError],
    which is a [RequestException] without a response in [requests] from 2.27
    on and a plain [ValueError] before; [setup.py] admits both. Or the body
    decodes to a list of candidates. *)
Inductive search_response :=
| SearchRequestException (has_response : bool)
| SearchUndecodable (as_request_exception : bool)
| SearchResults (results : list Book).

(** The same on the chapters endpoint: the request fails, the body does not
    decode, the decoded body is not an object with a [chapters] member, or
    it is one. *)
Inductive chapters_response :=
| ChaptersRequestException (has_response : bool)
| ChaptersUndecodable (as_request_exception : bool)
| ChaptersUnexpected
| ChaptersData (chapters : list dict).

(** What [response.json] raises on a body that does not decode. *)
Definition json_decode_error (as_request_exception : bool) : exn :=
  if as_request_exception then RequestException false else ValueError.

(** How [subprocess.run] ends: it raises (the tool cannot be started), or
    the tool exits with a return code, having left its output file or not. *)
Inductive proc_result :=
| ProcRaised
| ProcExited (returncode : Z) (output_written : bool).

#[global] Instance proc_result_eq_dec : EqDecision proc_result.
Proof. solve_decision. Defined.

Record World := {
  (** [self.folder_path], already absolute *)
  folder_path : pystr;
  (** [os.listdir(self.folder_path)], [None] when it raises *)
  os_listdir : option (list pystr);
  (** [MP3(path)], [None] when it raises *)
  mutagen_MP3 : pystr → option mp3;
  (** whether [audio.save()] returns *)
  mutagen_save : pystr → bool;
  requests_search : dict → search_response;
  requests_chapters : pystr → chapters_response;
  (** the two interactive dialogues, by what they end with *)
  get_user_choice : list Book → result (option Book);
  manual_search : result (option Book);
  (** whether [open(path, 'w')] succeeds *)
  open_ok : pystr → bool;
  ffmpeg : list pystr → proc_result;
  (** whether [os.remove] of an existing path is permitted *)
  remove_ok : pystr → bool;
}.

Inductive report :=
| AllOperationsCompleted
| CleanupFailed
| SplittingFailed.

(** The calls the program issues, in order. *)
Inductive event :=
| EvRequest (url : pystr) (params : dict)
| EvOpenWrite (path : pystr) (content : pystr)
| EvRun (cmd : list pystr) (r : proc_result)
| EvSave (path : pystr) (tags : list (string * pyval))
| EvRemove (path : pystr) (removed : bool)
| EvReport (r : report).

#[global] Instance report_eq_dec : EqDecision report.
Proof. solve_decision. Defined.

#[global] Instance event_eq_dec : EqDecision event.
Proof. solve_decision. Defined.

Record State := {
  fs : gset pystr;
  log : list event;
}.

(** ** The monad of the program: state, and exceptions that keep the state *)

Definition M (A : Type) : Type := State → result A * State.

#[global] Instance M_ret : MRet M := λ A a st, (Ok a, st).

#[global] Instance M_bind : MBind M := λ A B k c st,
  match c st with
  | (Ok a, st') => k a st'
  | (Raise e, st') => (Raise e, st')
  end.

Definition raise {A} (e : exn) : M A := λ st, (Raise e, st).

Definition lift {A} (r : result A) : M A := λ st, (r, st).

(** [try: c except Exception as e: h e] *)
Definition try_except {A} (c : M A) (h : exn → M A) : M A := λ st,
  match c st with
  | (Ok a, st') => (Ok a, st')
  | (Raise e, st') => h e st'
  end.

(** [try: c finally: f] *)
Definition try_finally {A} (c : M A) (f : M unit) : M A := λ st,
  let '(r, st') := c st in
  match f st' with
  | (Ok _, st'') => (r, st'')
  | (Raise e, st'') => (Raise e, st'')
  end.

Definition emit (e : event) : M unit := λ st,
  (Ok (), {| fs := fs st; log := log st ++ [e] |}).

Definition os_path_exists (path : pystr) : M bool := λ st,
  (Ok (bool_decide (path ∈ fs st)), st).

Section Program.

Variable w : World.

Definition os_remove (path : pystr) : M unit := λ st,
  if bool_decide (path ∈ fs st) then
    if remove_ok w path then
      (Ok (), {| fs := fs st ∖ {[path]}; log := log st ++ [EvRemove path true] |})
    else (Raise OSError, {| fs := fs st; log := log st ++ [EvRemove path false] |})
  else (Raise FileNotFoundError, {| fs := fs st; log := log st ++ [EvRemove path false] |}).

Definition open_write (path content : pystr) : M unit := λ st,
  if open_ok w path then
    (Ok (), {| fs := fs st ∪ {[path]}; log := log st ++ [EvOpenWrite path content] |})
  else (Raise OSError, st).

(** [subprocess.run(cmd, capture_output=True, text=True)] for an ffmpeg
    command writing [output_file]; gives [result.returncode]. *)
Definition subprocess_run (cmd : list pystr) (output_file : pystr) : M Z := λ st,
  match ffmpeg w cmd with
  | ProcRaised =>
      (Raise FileNotFoundError, {| fs := fs st; log := log st ++ [EvRun cmd ProcRaised] |})
  | ProcExited returncode written =>
      (Ok returncode,
       {| fs := if written then fs st ∪ {[output_file]} else fs st;
          log := log st ++ [EvRun cmd (ProcExited returncode written)] |})
  end.

(** *** [audimeta_client.py] *)

Definition api_base_url : pystr := lit "https://audimeta.de".

(** The dictionary returned when the file carries no tags. *)
Definition fallback_metadata : dict :=
  {[ "title" := PStr (lit "Mother");
     "author" := PStr (lit "m.s. RedCherries");
     "region" := PStr (lit "US") ]}.

(** [AudiMetaClient.get_metadata_from_file]; [None] is the [return None] of
    the handler. *)
Definition get_metadata_from_file (file_path : pystr) : option dict :=
  match mutagen_MP3 w file_path with
  | None => None
  | Some audio =>
      match mp3_tags audio with
      | Some tags =>
          if bool_decide (tags = ∅) then Some fallback_metadata
          else
            let title := default [] (tags !! "TIT2") in
            let album := default [] (tags !! "TALB") in
            let author := default [] (tags !! "TPE1") in
            Some {[ "title" := PStr (str_or title (str_or album (lit "Mother")));
                    "author" := PStr (str_or author (lit "m.s. RedCherries"));
                    "region" := PStr (lit "US") ]}
      | None => Some fallback_metadata
      end
  end.

(** The query built by [fetch_book_metadata]. *)
Definition search_query (search_params : dict) : dict :=
  {[ "title" := default (PStr []) (search_params !! "title");
     "author" := default (PStr []) (search_params !! "author");
     "region" := default (PStr (lit "US")) (search_params !! "region");
     "localTitle" := default (PStr []) (search_params !! "title");
     "localAuthor" := default (PStr []) (search_params !! "author") ]}.

(** The two handlers of [fetch_book_metadata]: both end in
    [return self.manual_search()], but the first prints
    [e.response.status_code] before, which raises when the exception carries
    no response. *)
Definition search_failed (e : exn) : result (option Book) :=
  match e with
  | RequestException false => Raise AttributeError
  | _ => manual_search w
  end.

(** [AudiMetaClient.fetch_book_metadata] *)
Definition fetch_book_metadata (search_params : dict) : M (option Book) :=
  let params := search_query search_params in
  try_except
    (emit (EvRequest (api_base_url ++ lit "/search") params);;
     match requests_search w params with
     | SearchRequestException has_response => raise (RequestException has_response)
     | SearchUndecodable as_request_exception =>
         raise (json_decode_error as_request_exception)
     | SearchResults results =>
         match results with
         | _ :: _ => lift (get_user_choice w results)
         | [] => lift (manual_search w)
         end
     end)
    (λ e, lift (search_failed e)).

(** [a / b] on two [int], [0 < b]: the quotient rounded to the nearest
    float, or an [OverflowError] when that is no float any more. *)
Definition true_div (a b : Z) : result Q :=
  let q := float_of_Q (a # Z.to_pos b) in
  if float_overflow q then Raise OverflowError else Ok q.

(** [int(a / b)]: true division, then truncation towards zero. *)
Definition int_true_div (a b : Z) : result Z :=
  match true_div a b with
  | Ok q => Ok (int_of_Q q)
  | Raise e => Raise e
  end.

(** [int(x / 1000)]; a [bool] counts as 0 or 1. *)
Definition int_div_1000 (x : pyval) : result Z :=
  match x with
  | PInt z => int_true_div z 1000
  | PBool b => int_true_div (Z.b2z b) 1000
  | PNone | PStr _ => Raise TypeError
  end.

(** The body of the loop that builds [processed_chapters]. *)
Definition process_chapter (chapter : dict) : result dict :=
  let title := default (PStr (lit "Unknown")) (chapter !! "title") in
  let start := default (PInt 0) (chapter !! "startOffsetSec") in
  match int_div_1000 (default (PInt 0) (chapter !! "lengthMs")) with
  | Raise e => Raise e
  | Ok duration =>
      Ok {[ "title" := title; "start" := start; "duration" := PInt duration ]}
  end.

Fixpoint process_chapters (chapters : list dict) : result (list dict) :=
  match chapters with
  | [] => Ok []
  | chapter :: rest =>
      match process_chapter chapter with
      | Raise e => Raise e
      | Ok processed_chapter =>
          match process_chapters rest with
          | Raise e => Raise e
          | Ok processed_chapters => Ok (processed_chapter :: processed_chapters)
          end
      end
  end.

(** [AudiMetaClient.fetch_chapters]; both handlers fall through to the
    final [return None], the first one after printing [e.response.text],
    which raises when the exception carries no response. *)
Definition fetch_chapters (asin : pystr) : M (option (list dict)) :=
  try_except
    (emit (EvRequest (api_base_url ++ lit "/chapters/" ++ asin) ∅);;
     match requests_chapters w asin with
     | ChaptersRequestException has_response => raise (RequestException has_response)
     | ChaptersUndecodable as_request_exception =>
         raise (json_decode_error as_request_exception)
     | ChaptersUnexpected => mret None
     | ChaptersData chapters =>
         processed_chapters ← lift (process_chapters chapters);
         mret (Some processed_chapters)
     end)
    (λ e, match e with
          | RequestException false => raise AttributeError
          | _ => mret None
          end).

(** *** [audio_splitter.py] *)

Definition combined_file : pystr := lit "combined_temp.mp3".
Definition file_list : pystr := lit "files.txt".

Definition str_le (a b : pystr) : Prop := Is_true (str_leb a b).

(** [AudioSplitter.get_mp3_files] *)
Definition get_mp3_files : list pystr :=
  match os_listdir w with
  | Some names =>
      merge_sort str_le (filter (λ f, Is_true (endswith (lower f) (lit ".mp3"))) names)
  | None => []
  end.

(** [AudioSplitter.calculate_total_duration] *)
Fixpoint calculate_total_duration (mp3_files : list pystr) (total_duration : Q) : result Q :=
  match mp3_files with
  | [] => Ok total_duration
  | mp3_file :: rest =>
      match mutagen_MP3 w (path_join (folder_path w) mp3_file) with
      | Some audio =>
          calculate_total_duration rest (float_add total_duration (mp3_length audio))
      | None => Raise MutagenError
      end
  end.

(** The lines written to the concatenation manifest. *)
Definition manifest (mp3_files : list pystr) : pystr :=
  flat_map (λ mp3_name,
    let full_path := path_join (folder_path w) mp3_name in
    let escaped_path := replace_char 39%N (lit "'\''") full_path in
    lit "file '" ++ escaped_path ++ lit "'" ++ [10%N]) mp3_files.

Definition concat_cmd (output_file : pystr) : list pystr :=
  [lit "ffmpeg"; lit "-v"; lit "info"; lit "-f"; lit "concat"; lit "-safe"; lit "0";
   lit "-i"; file_list; lit "-c"; lit "copy"; lit "-y"; output_file].

(** [AudioSplitter.combine_mp3_files] *)
Definition combine_mp3_files (mp3_files : list pystr) : M pystr :=
  match mp3_files with
  | [only] => mret only
  | _ =>
      let output_file := path_join (folder_path w) combined_file in
      try_finally
        (try_except
           (open_write file_list (manifest mp3_files);;
            returncode ← subprocess_run (concat_cmd output_file) output_file;
            if bool_decide (returncode ≠ 0) then raise CalledProcessError
            else mret combined_file)
           (λ e, raise e))
        (present ← os_path_exists file_list;
         if present : bool then os_remove file_list else mret ())
  end.

Definition default_author : pystr := lit "m.s. RedCherries".

(** The frames [tag_file] adds before saving. *)
Definition tag_frames (chapter : dict) (track_num total_tracks : nat) (book_metadata : Book)
    : result (list (string * pyval)) :=
  match chapter !! "title" with
  | None => Raise KeyError
  | Some title =>
      let track := decimal (Z.of_nat track_num) ++ lit "/" ++ decimal (Z.of_nat total_tracks) in
      match default [Some default_author] (book_authors book_metadata) with
      | [] => Raise IndexError
      | first_author :: _ =>
          let artist := default default_author first_author in
          let album := default (lit "Mother") (book_title book_metadata) in
          let year :=
            match book_releaseDate book_metadata with
            | Some date => [("TDRC", PStr (take 4 date))]
            | None => []
            end in
          let genre :=
            match book_genres book_metadata with
            | Some genres =>
                match omap id genres with
                | name :: _ => [("TCON", PStr name)]
                | [] => []
                end
            | None => []
            end in
          Ok ([("TIT2", title); ("TRCK", PStr track); ("TPE1", PStr artist);
               ("TALB", PStr album)] ++ year ++ genre)
      end
  end.

(** [AudioSplitter.tag_file]: whatever is raised is printed and dropped. *)
Definition tag_file (file_path : pystr) (chapter : dict) (track_num total_tracks : nat)
    (book_metadata : Book) : M unit :=
  try_except
    (match mutagen_MP3 w file_path with
     | None => raise MutagenError
     | Some _ =>
         frames ← lift (tag_frames chapter track_num total_tracks book_metadata);
         if mutagen_save w file_path then emit (EvSave file_path frames)
         else raise MutagenError
     end)
    (λ _, mret ()).

(** [sanitize_filename] on whatever the [title] member holds: only a [str]
    can be iterated. *)
Definition sanitize_title (title : pyval) : result pystr :=
  match title with
  | PStr s => Ok (sanitize_filename s)
  | _ => Raise TypeError
  end.

Definition split_cmd (input_path start duration output_file : pystr) : list pystr :=
  [lit "ffmpeg"; lit "-i"; input_path; lit "-ss"; start; lit "-t"; duration;
   lit "-c"; lit "copy"; lit "-y"; output_file].

(** The body of the loop of [split_by_chapters] for entry [i]; the result
    tells whether [successful_splits] is incremented. *)
Definition split_chapter (input_path : pystr) (total : nat) (book_metadata : Book)
    (i : nat) (chapter : dict) : M bool :=
  try_except
    (let title := default (PStr (lit "Chapter " ++ decimal (Z.of_nat i))) (chapter !! "title") in
     let start := py_str (default (PInt 0) (chapter !! "start")) in
     let duration := py_str (default (PInt 0) (chapter !! "duration")) in
     safe_title ← lift (sanitize_title title);
     let output_file := path_join (folder_path w) (chapter_filename i safe_title) in
     returncode ← subprocess_run (split_cmd input_path start duration output_file) output_file;
     if bool_decide (returncode ≠ 0) then mret false
     else tag_file output_file chapter i total book_metadata;; mret true)
    (λ _, mret false).

Fixpoint sweep (input_path : pystr) (total : nat) (book_metadata : Book)
    (i : nat) (chapters : list dict) (successful_splits : nat) : M nat :=
  match chapters with
  | [] => mret successful_splits
  | chapter :: rest =>
      counted ← split_chapter input_path total book_metadata i chapter;
      sweep input_path total book_metadata (S i) rest
        (if counted : bool then S successful_splits else successful_splits)
  end.

(** [AudioSplitter.split_by_chapters] *)
Definition split_by_chapters (input_file : pystr) (chapters : list dict)
    (book_metadata : Book) : M bool :=
  let input_path := path_join (folder_path w) input_file in
  successful_splits ← sweep input_path (length chapters) book_metadata 1 chapters 0;
  mret (bool_decide (successful_splits = length chapters)).

(** The loop of [process_folder] over [original_files]. *)
Fixpoint remove_originals (original_files : list pystr) (cleanup_successful : bool) : M bool :=
  match original_files with
  | [] => mret cleanup_successful
  | file_path :: rest =>
      ok ← try_except
             (present ← os_path_exists file_path;
              (if present : bool then os_remove file_path else mret ());;
              mret cleanup_successful)
             (λ _, mret false);
      remove_originals rest ok
  end.

(** A decoded candidate is falsy when it is the empty object. *)
Definition book_truthy (b : Book) : bool :=
  bool_decide (b ≠ {| book_title := None; book_authors := None; book_releaseDate := None;
                      book_genres := None; book_asin := None |}).


(** The part of [process_folder] after the chapters are known: the
    concatenation, the sweep, the cleanup and the final report. *)
Definition cut_and_cleanup (mp3_files original_files : list pystr)
    (chapters : list dict) (book_metadata : Book) : M bool :=
  combined ← (if bool_decide (1 < length mp3_files)%nat then combine_mp3_files mp3_files
              else mret (default [] (head mp3_files)));
  splitting_successful ← split_by_chapters combined chapters book_metadata;
  cleanup_successful ←
    (if splitting_successful : bool then
       cleanup_successful ← remove_originals original_files true;
       if bool_decide (1 < length mp3_files)%nat then
         let cleanup_file := path_join (folder_path w) combined_file in
         present ← os_path_exists cleanup_file;
         if present : bool then
           try_except (os_remove cleanup_file;; mret cleanup_successful) (λ _, mret false)
         else mret cleanup_successful
       else mret cleanup_successful
     else mret true);
  emit (EvReport (if splitting_successful && cleanup_successful then AllOperationsCompleted
                  else if splitting_successful then CleanupFailed
                  else SplittingFailed));;
  mret splitting_successful.

(** [AudioSplitter.process_folder] *)
Definition process_folder : M bool :=
  try_except
    (let mp3_files := get_mp3_files in
     match mp3_files with
     | [] => mret false
     | first_name :: _ =>
         let original_files := path_join (folder_path w) <$> mp3_files in
         let first_file := path_join (folder_path w) first_name in
         match get_metadata_from_file first_file with
         | None => mret false
         | Some metadata =>
             if bool_decide (metadata = ∅) then mret false
             else
               total_duration ← lift (calculate_total_duration mp3_files 0%Q);
               let metadata :=
                 <["lengthMinutes" := PInt (int_of_Q (float_div total_duration 60))]> metadata in
               book_metadata ← fetch_book_metadata metadata;
               match book_metadata with
               | None => mret false
               | Some book_metadata =>
                   if negb (book_truthy book_metadata) then mret false
                   else
                     asin ← lift (match book_asin book_metadata with
                                  | Some asin => Ok asin
                                  | None => Raise KeyError
                                  end);
                     chapters ← fetch_chapters asin;
                     match chapters with
                     | None | Some [] => mret false
                     | Some chapters =>
                         cut_and_cleanup mp3_files original_files chapters book_metadata
                     end
               end
         end
     end)
    (λ _, mret false).

End Program.

(** ** Notions used in the statements *)

(** What [sanitize_filename] keeps before trimming. *)
Definition clean (title : pystr) : pystr := filter (λ c, c ∉ invalid_chars) title.

Definition blank (s : pystr) : Prop := Forall (λ c, isspace c = true) s.

(** A title of 201 characters whose 200th is a space. *)
Definition long_title : pystr := replicate 199 97%N ++ lit " b".

(** The integer a decoded number stands for in arithmetic; a [bool] is 0
    or 1. *)
Definition int_value (v : pyval) : option Z :=
  match v with
  | PInt z => Some z
  | PBool b => Some (Z.b2z b)
  | PNone | PStr _ => None
  end.

(** The [lengthMs] member of a raw chapter, 0 when absent. *)
Definition length_ms (chapter : dict) : option Z :=
  int_value (default (PInt 0) (chapter !! "lengthMs")).

(** The lengths on which [int(x / 1000)] is exactly the truncated
    quotient: the integers a float holds exactly. *)
Definition exact_length (chapter : dict) : Prop :=
  ∃ ms, length_ms chapter = Some ms ∧ Z.abs ms < 2 ^ 53.

(** The entry [fetch_chapters] builds from a raw chapter of length [ms]. *)
Definition processed_entry (chapter : dict) (ms : Z) : dict :=
  {[ "title" := default (PStr (lit "Unknown")) (chapter !! "title");
     "start" := default (PInt 0) (chapter !! "startOffsetSec");
     "duration" := PInt (Z.quot ms 1000) ]}.

(** [enumerate(l, start)] *)
Fixpoint enumerate {A} (start : nat) (l : list A) : list (nat * A) :=
  match l with
  | [] => []
  | x :: r => (start, x) :: enumerate (S start) r
  end.

(** The events a run appended to the log. *)
Definition new_events (st st' : State) : list event :=
  drop (length (log st)) (log st').

(** The ffmpeg commands among some events, in order. *)
Definition runs (evs : list event) : list (list pystr) :=
  omap (λ e, match e with EvRun cmd _ => Some cmd | _ => None end) evs.

Definition is_cut_event (e : event) : Prop :=
  match e with
  | EvRun _ _ | EvSave _ _ => True
  | _ => False
  end.

Definition is_removal (e : event) : Prop :=
  match e with
  | EvRemove _ _ => True
  | _ => False
  end.

Definition removes (S : list pystr) (e : event) : Prop :=
  match e with
  | EvRemove path _ => path ∈ S
  | _ => False
  end.

#[global] Instance removes_dec S e : Decision (removes S e).
Proof. destruct e; simpl; apply _. Defined.

(** The command the sweep runs for entry [i]; none when the title is not
    a [str], in which case the entry fails before any command. *)
Definition planned_cmd (w : World) (input_path : pystr) (i : nat) (chapter : dict)
    : option (list pystr) :=
  match default (PStr (lit "Chapter " ++ decimal (Z.of_nat i))) (chapter !! "title") with
  | PStr title =>
      Some (split_cmd input_path
              (py_str (default (PInt 0) (chapter !! "start")))
              (py_str (default (PInt 0) (chapter !! "duration")))
              (path_join (folder_path w) (chapter_filename i (sanitize_filename title))))
  | _ => None
  end.

(** The extraction of entry [i] succeeds: its command is run and ffmpeg
    exits with status 0. *)
Definition cut_succeeds (w : World) (input_path : pystr) (ic : nat * dict) : bool :=
  match planned_cmd w input_path ic.1 ic.2 with
  | Some cmd =>
      match ffmpeg w cmd with
      | ProcExited returncode _ => bool_decide (returncode = 0)
      | ProcRaised => false
      end
  | None => false
  end.

(** The boundary rule of the specification: the duration of an entry is the
    distance to the next start, and for the last entry the distance to the
    total duration. *)
Fixpoint boundary_durations (starts : list Z) (total : Z) : list Z :=
  match starts with
  | [] => []
  | start :: rest =>
      match rest with
      | [] => [total - start]
      | next :: _ => (next - start) :: boundary_durations rest total
      end
  end.

(** The [-ss] and [-t] arguments of an extraction command. *)
Definition cut_window (cmd : list pystr) : option (pystr * pystr) :=
  match cmd !! 1%nat, cmd !! 4%nat, cmd !! 6%nat with
  | Some flag, Some start, Some duration =>
      if bool_decide (flag = lit "-i") then Some (start, duration) else None
  | _, _, _ => None
  end.

Definition cut_windows (evs : list event) : list (pystr * pystr) :=
  omap cut_window (runs evs).

(** The output file of a command: its last argument. *)
Definition cmd_output (cmd : list pystr) : pystr := default [] (last cmd).

(** ** Sample runs *)

Definition raw_chapter (title : string) (start : Z) (ms : option Z) : dict :=
  let base : dict := {[ "title" := PStr (lit title); "startOffsetSec" := PInt start ]} in
  match ms with
  | Some ms => <["lengthMs" := PInt ms]> base
  | None => base
  end.

Definition demo_book : Book :=
  {| book_title := Some (lit "Mother");
     book_authors := Some [Some (lit "m.s. RedCherries")];
     book_releaseDate := Some (lit "2024-07-09");
     book_genres := Some [Some (lit "Poetry")];
     book_asin := Some (lit "B0D12345AB") |}.

Definition always_exit_0 : list pystr → proc_result := λ _, ProcExited 0 true.

(** Concatenation works; every extraction exits with status 1. *)
Definition cuts_exit_1 : list pystr → proc_result := λ cmd,
  if bool_decide (cmd !! 1%nat = Some (lit "-i")) then ProcExited 1 false
  else ProcExited 0 true.

(** A folder [/books/mother] with the files [names], each 600 seconds long
    and without tags when [readable]; the catalogue offers [demo_book]
    and the user takes the first candidate. *)
Definition demo_world (names : list string) (readable save_ok : bool)
    (chapters : chapters_response) (tool : list pystr → proc_result) : World :=
  {| folder_path := lit "/books/mother";
     os_listdir := Some (lit <$> names);
     mutagen_MP3 := λ _,
       if readable then Some {| mp3_tags := None; mp3_length := 600 |} else None;
     mutagen_save := λ _, save_ok;
     requests_search := λ _, SearchResults [demo_book];
     requests_chapters := λ _, chapters;
     get_user_choice := λ results, Ok (head results);
     manual_search := Ok None;
     open_ok := λ _, true;
     ffmpeg := tool;
     remove_ok := λ _, true |}.

Definition demo_state (names : list string) : State :=
  {| fs := list_to_set ((λ name, path_join (lit "/books/mother") (lit name)) <$> names);
     log := [] |}.

Definition three_parts : list string := ["part1.mp3"; "part2.mp3"; "part3.mp3"].

(** Chapters with start offsets only. *)
Definition offsets_only : list dict :=
  [raw_chapter "Intro" 0 None; raw_chapter "Middle" 300 None; raw_chapter "End" 1200 None].

(** The second entry ends at 5600 seconds, the third has a negative length;
    the three files last 1800 seconds. *)
Definition out_of_range : list dict :=
  [raw_chapter "Intro" 0 (Some 300000); raw_chapter "Late" 5000 (Some 600000);
   raw_chapter "Back" 100 (Some (-5000))].

Definition well_formed : list dict :=
  [raw_chapter "Intro" 0 (Some 300000); raw_chapter "Middle" 300 (Some 900000);
   raw_chapter "End" 1200 (Some 600000)].

(** The [duration] member of a processed entry, as [split_by_chapters]
    reads it. *)
Definition entry_duration (entry : dict) : pyval := default (PInt 0) (entry !! "duration").

Definition sum_durations (entries : list dict) : Z :=
  foldr (λ entry total, default 0 (int_value (entry_duration entry)) + total) 0 entries.

(** A world in which tagging fails: [audio.save()] raises for every file. *)
Definition untaggable_world : World :=
  demo_world three_parts true false (ChaptersData well_formed) always_exit_0.

Definition taggable_world : World :=
  demo_world three_parts true true (ChaptersData well_formed) always_exit_0.

Definition is_save (e : event) : Prop :=
  match e with
  | EvSave _ _ => True
  | _ => False
  end.

#[global] Instance is_save_dec e : Decision (is_save e).
Proof. destruct e; simpl; apply _. Defined.

(** A processed entry. *)
Definition entry (title : string) (start duration : Z) : dict :=
  {[ "title" := PStr (lit title); "start" := PInt start; "duration" := PInt duration ]}.

Definition three_entries : list dict :=
  [entry "Intro" 0 300; entry "Middle" 300 900; entry "End" 1200 600].

(** ** The session before the cut, as a value *)

(** [path_join (folder_path w)] over the sorted names: [original_files] of
    [process_folder]. *)
Definition original_files (w : World) : list pystr :=
  path_join (folder_path w) <$> get_mp3_files w.

Definition is_request (e : event) : Prop :=
  match e with
  | EvRequest _ _ => True
  | _ => False
  end.

(** What the concatenation step may log. *)
Definition is_combine_event (e : event) : Prop :=
  match e with
  | EvOpenWrite _ _ | EvRun _ _ => True
  | EvRemove path _ => path = file_list
  | _ => False
  end.

Definition search_request (metadata : dict) : event :=
  EvRequest (api_base_url ++ lit "/search") (search_query metadata).

Definition chapters_request (asin : pystr) : event :=
  EvRequest (api_base_url ++ lit "/chapters/" ++ asin) ∅.

(** A dialogue inside the [try] of [fetch_book_metadata]: what it raises
    goes to the handlers. *)
Definition asked (w : World) (answer : result (option Book)) : result (option Book) :=
  match answer with
  | Ok choice => Ok choice
  | Raise e => search_failed w e
  end.

(** What [fetch_book_metadata] returns. *)
Definition resolved_book (w : World) (metadata : dict) : result (option Book) :=
  match requests_search w (search_query metadata) with
  | SearchRequestException has_response => search_failed w (RequestException has_response)
  | SearchUndecodable as_request_exception =>
      search_failed w (json_decode_error as_request_exception)
  | SearchResults [] => asked w (manual_search w)
  | SearchResults (first :: rest) => asked w (get_user_choice w (first :: rest))
  end.

(** What [fetch_chapters] returns. *)
Definition fetched_chapters (w : World) (asin : pystr) : result (option (list dict)) :=
  match requests_chapters w asin with
  | ChaptersRequestException false | ChaptersUndecodable true => Raise AttributeError
  | ChaptersRequestException true | ChaptersUndecodable false | ChaptersUnexpected => Ok None
  | ChaptersData raw =>
      match process_chapters raw with
      | Ok chapters => Ok (Some chapters)
      | Raise _ => Ok None
      end
  end.

(** The state after some more events. *)
Definition logged (st : State) (evs : list event) : State :=
  {| fs := fs st; log := log st ++ evs |}.
Arguments logged : simpl never.

(** How the session stands when [process_folder] has the chapters: it gave
    up, having issued some requests, or it goes on to cut [chapters] for
    [book]. *)
Inductive plan :=
| GiveUp (requests : list event)
| Cut (requests : list event) (book : Book) (chapters : list dict).

Definition session_plan (w : World) : plan :=
  match get_mp3_files w with
  | [] => GiveUp []
  | first_name :: _ =>
      match get_metadata_from_file w (path_join (folder_path w) first_name) with
      | None => GiveUp []
      | Some metadata =>
          if bool_decide (metadata = ∅) then GiveUp []
          else
            match calculate_total_duration w (get_mp3_files w) 0%Q with
            | Raise _ => GiveUp []
            | Ok total_duration =>
                let metadata :=
                  <["lengthMinutes" := PInt (int_of_Q (float_div total_duration 60))]> metadata in
                match resolved_book w metadata with
                | Raise _ | Ok None => GiveUp [search_request metadata]
                | Ok (Some book) =>
                    if negb (book_truthy book) then GiveUp [search_request metadata]
                    else
                      match book_asin book with
                      | None => GiveUp [search_request metadata]
                      | Some asin =>
                          match fetched_chapters w asin with
                          | Raise _ | Ok None | Ok (Some []) =>
                              GiveUp [search_request metadata; chapters_request asin]
                          | Ok (Some chapters) =>
                              Cut [search_request metadata; chapters_request asin] book chapters
                          end
                      end
                end
            end
      end
  end.

(** [process_folder] turns an exception of the cut into [False]. *)
Definition caught (run : result bool * State) : result bool * State :=
  match run with
  | (Ok b, st) => (Ok b, st)
  | (Raise _, st) => (Ok false, st)
  end.

Definition two_parts : list string := ["part1.mp3"; "part2.mp3"].

(** Two files are concatenated, then every extraction fails. *)
Definition failing_cut_world : World :=
  demo_world two_parts true true (ChaptersData well_formed) cuts_exit_1.


(** The service answers with an empty list of chapters. *)
Definition no_chapters_world : World :=
  demo_world three_parts true true (ChaptersData []) always_exit_0.

(** One chapter of 300999 milliseconds and one without [lengthMs]. *)
Definition mixed_chapters : list dict :=
  [raw_chapter "Intro" 0 (Some 300999); raw_chapter "Outro" 300 None].

Definition mixed_world : World :=
  demo_world three_parts true true (ChaptersData mixed_chapters) always_exit_0.

(** ** Notions for the further properties *)

Definition isdigit (c : N) : bool := ((48 <=? c) && (c <=? 57))%N.

(** The number a string of decimal digits denotes. *)
Definition digits_value (s : pystr) : Z :=
  foldl (λ acc c, 10 * acc + (Z.of_N c - 48)) 0 s.

(** The digits a name starts with, and the number they denote. *)
Fixpoint leading_digits (s : pystr) : pystr :=
  match s with
  | [] => []
  | c :: r => if isdigit c then c :: leading_digits r else []
  end.

Definition leading_number (s : pystr) : Z := digits_value (leading_digits s).

(** The names [get_mp3_files] keeps. *)
Definition mp3_name (f : pystr) : Prop := Is_true (endswith (lower f) (lit ".mp3")).

(** [info.length] of a file, 0 when it cannot be read. *)
Definition length_of (w : World) (mp3_file : pystr) : Q :=
  from_option mp3_length 0%Q (mutagen_MP3 w (path_join (folder_path w) mp3_file)).

Definition readable (w : World) (mp3_file : pystr) : Prop :=
  is_Some (mutagen_MP3 w (path_join (folder_path w) mp3_file)).

(** ** Notions for the further properties *)

#[global] Instance mp3_name_dec f : Decision (mp3_name f).
Proof. unfold mp3_name. apply _. Defined.

(** The separator [path_join] puts after the folder. *)
Definition folder_sep (w : World) : pystr :=
  if bool_decide (folder_path w = []) || endswith (folder_path w) (lit "/") then []
  else lit "/".

(** Two entries of the same title. *)
Definition same_title_entries : list dict :=
  [entry "Interlude" 0 60; entry "Interlude" 60 90].

(** A chapter whose [lengthMs] is a string. *)
Definition bad_length_chapter : dict :=
  <["lengthMs" := PStr (lit "n/a")]> (raw_chapter "Middle" 300 None).

Definition bad_length_world : World :=
  demo_world three_parts true true
    (ChaptersData [raw_chapter "Intro" 0 (Some 300000); bad_length_chapter])
    always_exit_0.

(** A file with tags: an album and an artist, no title. *)
Definition tagged_world : World :=
  {| folder_path := lit "/books/mother";
     os_listdir := Some [lit "b.MP3"; lit "cover.jpg"; lit "a.mp3"; lit "notes.mp3.txt"];
     mutagen_MP3 := λ _,
       Some {| mp3_tags := Some {[ "TALB" := lit "Mother"; "TPE1" := lit "m.s. RedCherries" ]};
               mp3_length := 600 |};
     mutagen_save := λ _, true;
     requests_search := λ _, SearchResults [demo_book];
     requests_chapters := λ _, ChaptersData well_formed;
     get_user_choice := λ results, Ok (head results);
     manual_search := Ok None;
     open_ok := λ _, true;
     ffmpeg := always_exit_0;
     remove_ok := λ _, true |}.

(** A length mutagen can report: a float between 0 and 2^63 seconds. The
    float sums of such lengths stay below [sys.float_info.max]. *)
Definition plain_length (q : Q) : Prop :=
  float_of_Q q = q ∧ (0 <= q)%Q ∧ (q <= 2 ^ 63 # 1)%Q.

(** The lengths of some files, added up from the left in floats. *)
Definition total_length (w : World) (mp3_files : list pystr) : Q :=
  foldl (λ sum f, float_add sum (length_of w f)) 0%Q mp3_files.

(** What [tag_file] logs: the save with its frames, or nothing. *)
Definition tag_events (w : World) (file_path : pystr) (chapter : dict)
    (track_num total_tracks : nat) (book : Book) : list event :=
  match mutagen_MP3 w file_path, tag_frames chapter track_num total_tracks book with
  | Some _, Ok frames =>
      if mutagen_save w file_path then [EvSave file_path frames] else []
  | _, _ => []
  end.

(** What one pass of the sweep logs for entry [i]. *)
Definition entry_events (w : World) (input_path : pystr) (total : nat) (book : Book)
    (ic : nat * dict) : list event :=
  match planned_cmd w input_path ic.1 ic.2 with
  | None => []
  | Some cmd =>
      EvRun cmd (ffmpeg w cmd)
      :: (if cut_succeeds w input_path ic
          then tag_events w (cmd_output cmd) ic.2 ic.1 total book else [])
  end.

(** The files ffmpeg reports written, among some events. *)
Definition written_outputs (evs : list event) : list pystr :=
  omap (λ e, match e with
             | EvRun cmd (ProcExited _ true) => Some (cmd_output cmd)
             | _ => None
             end) evs.

(** A candidate whose list of authors is empty. *)
Definition anonymous_book : Book :=
  {| book_title := Some (lit "Mother");
     book_authors := Some [];
     book_releaseDate := None;
     book_genres := None;
     book_asin := Some (lit "B0D12345AB") |}.

(** Every save among [evs] comes right after the successful extraction of
    the very file it tags. *)
Definition saves_follow_cuts (evs : list event) : Prop :=
  ∀ pre path frames post,
    evs = pre ++ EvSave path frames :: post →
    ∃ pre' cmd written,
      pre = pre' ++ [EvRun cmd (ProcExited 0 written)] ∧ cmd_output cmd = path.

Definition removal_failed (e : event) : Prop :=
  match e with
  | EvRemove _ false => True
  | _ => False
  end.

#[global] Instance removal_failed_dec e : Decision (removal_failed e).
Proof. destruct e as [| | | |path []|]; simpl; apply _. Defined.

(** An entry without a [title] member. *)
Definition untitled_entry : dict := {[ "start" := PInt 0; "duration" := PInt 60 ]}.

(** No connection: both endpoints fail without a response. The manual
    search would find the book. *)
Definition offline_world : World :=
  {| folder_path := lit "/books/mother";
     os_listdir := Some [lit "part1.mp3"];
     mutagen_MP3 := λ _, Some {| mp3_tags := None; mp3_length := 600 |};
     mutagen_save := λ _, true;
     requests_search := λ _, SearchRequestException false;
     requests_chapters := λ _, ChaptersRequestException false;
     get_user_choice := λ results, Ok (head results);
     manual_search := Ok (Some demo_book);
     open_ok := λ _, true;
     ffmpeg := always_exit_0;
     remove_ok := λ _, true |}.

(** The search endpoint answers with a body that does not decode, and
    [requests] is 2.27 or later. The manual search would find the book. *)
Definition undecodable_world : World :=
  {| folder_path := lit "/books/mother";
     os_listdir := Some [lit "part1.mp3"];
     mutagen_MP3 := λ _, Some {| mp3_tags := None; mp3_length := 600 |};
     mutagen_save := λ _, true;
     requests_search := λ _, SearchUndecodable true;
     requests_chapters := λ _, ChaptersData well_formed;
     get_user_choice := λ results, Ok (head results);
     manual_search := Ok (Some demo_book);
     open_ok := λ _, true;
     ffmpeg := always_exit_0;
     remove_ok := λ _, true |}.

(** Everything works, but the input files may not be removed. *)
Definition protected_world : World :=
  {| folder_path := lit "/books/mother";
     os_listdir := Some [lit "part1.mp3"];
     mutagen_MP3 := λ _, Some {| mp3_tags := None; mp3_length := 600 |};
     mutagen_save := λ _, true;
     requests_search := λ _, SearchResults [demo_book];
     requests_chapters := λ _, ChaptersData well_formed;
     get_user_choice := λ results, Ok (head results);
     manual_search := Ok None;
     open_ok := λ _, true;
     ffmpeg := always_exit_0;
     remove_ok := λ _, false |}.

(** The paths among [paths] that [os.remove] is permitted to delete. *)
Definition removable (w : World) (paths : list pystr) : list pystr :=
  filter (λ path, remove_ok w path = true) paths.

(** The closing message that fits what happened: the verdict of the sweep
    and the removals attempted. *)
Definition fitting_report (splitting_successful : bool) (evs : list event) : report :=
  if splitting_successful then
    if bool_decide (Exists removal_failed evs) then CleanupFailed
    else AllOperationsCompleted
  else SplittingFailed.
Arguments fitting_report : simpl never.

(** A folder whose two files bear the very names of the chapter files to
    come. *)
Definition chapter_named_parts : list string := ["01_Intro.mp3"; "02_Middle.mp3"].

Definition two_chapters : list dict :=
  [raw_chapter "Intro" 0 (Some 300000); raw_chapter "Middle" 300 (Some 900000)].

Definition overwriting_world : World :=
  demo_world chapter_named_parts true true (ChaptersData two_chapters) always_exit_0.

(** What the cut may do, apart from its closing message: run ffmpeg and
    save tags; write a manifest, and remove the manifest and the
    concatenated file, only when there are several input files; remove the
    input files. *)
Definition session_event (w : World) (mp3_files originals : list pystr) (e : event) : Prop :=
  match e with
  | EvRun _ _ | EvSave _ _ => True
  | EvOpenWrite _ _ => (1 < length mp3_files)%nat
  | EvRemove path _ =>
      path ∈ originals
      ∨ ((1 < length mp3_files)%nat
         ∧ (path = file_list ∨ path = path_join (folder_path w) combined_file))
  | EvRequest _ _ | EvReport _ => False
  end.

(** The world [w] with other lengths for its audio files: [length path] is
    what [audio.info.length] gives for the file at [path]. *)
Definition with_lengths (length : pystr → Q) (w : World) : World :=
  {| folder_path := folder_path w;
     os_listdir := os_listdir w;
     mutagen_MP3 := λ path,
       (λ audio, {| mp3_tags := mp3_tags audio; mp3_length := length path |})
         <$> mutagen_MP3 w path;
     mutagen_save := mutagen_save w;
     requests_search := requests_search w;
     requests_chapters := requests_chapters w;
     get_user_choice := get_user_choice w;
     manual_search := manual_search w;
     open_ok := open_ok w;
     ffmpeg := ffmpeg w;
     remove_ok := remove_ok w |}.

(** * Properties *)

(** Unfolding of the monad, one layer at a time. *)
Ltac run_step :=
  unfold mbind, M_bind, mret, M_ret, lift, raise, emit, try_except, try_finally,
    os_path_exists; simpl.

(** ** Trimming *)

Section Strip.

Implicit Types (s : pystr) (c : N).

Lemma lstrip_split s : ∃ pre, s = pre ++ lstrip s ∧ blank pre.
Proof.
  induction s as [|c s [pre [Hs Hpre]]]; simpl.
  - exists []. split; [done | constructor].
  - destruct (isspace c) eqn:Hc.
    + exists (c :: pre). split; [by rewrite Hs at 1 | by constructor].
    + exists []. split; [done | constructor].
Qed.

Lemma lstrip_fixed s : lstrip s = s ↔ s = [] ∨ ∃ c r, s = c :: r ∧ isspace c = false.
Proof.
  split.
  - destruct s as [|c r]; [by left | right]. exists c, r. split; [done |].
    simpl in H. destruct (isspace c) eqn:Hc; [| done].
    destruct (lstrip_split r) as [pre [Hr _]].
    apply (f_equal length) in H, Hr. rewrite length_app in Hr. simpl in H. lia.
  - intros [-> | (c & r & -> & Hc)]; simpl; [done | by rewrite Hc].
Qed.

Lemma lstrip_idem s : lstrip (lstrip s) = lstrip s.
Proof.
  induction s as [|c s IH]; simpl; [done |].
  destruct (isspace c) eqn:Hc; [done | simpl; by rewrite Hc].
Qed.

Lemma lstrip_snoc s c : isspace c = false → lstrip (s ++ [c]) = lstrip s ++ [c].
Proof.
  intros Hc. induction s as [|d s IH]; simpl; [by rewrite Hc |].
  by destruct (isspace d).
Qed.

Lemma rstrip_cons c s : isspace c = false → rstrip (c :: s) = c :: rstrip s.
Proof.
  intros Hc. unfold rstrip.
  by rewrite reverse_cons, lstrip_snoc, reverse_snoc.
Qed.

Lemma rstrip_split s : ∃ post, s = rstrip s ++ post ∧ blank post.
Proof.
  destruct (lstrip_split (reverse s)) as [pre [Hs Hpre]].
  exists (reverse pre). split; [| by apply Forall_reverse].
  unfold rstrip. by rewrite <- reverse_app, <- Hs, reverse_involutive.
Qed.

Lemma rstrip_idem s : rstrip (rstrip s) = rstrip s.
Proof. unfold rstrip. by rewrite reverse_involutive, lstrip_idem. Qed.

Lemma rstrip_length s : (length (rstrip s) ≤ length s)%nat.
Proof.
  destruct (rstrip_split s) as [post [Hs _]].
  apply (f_equal length) in Hs. rewrite length_app in Hs. lia.
Qed.

(** Trimming on the right keeps a string that has nothing to trim on the
    left that way. *)
Lemma lstrip_rstrip s : lstrip s = s → lstrip (rstrip s) = rstrip s.
Proof.
  intros [-> | (c & r & -> & Hc)]%lstrip_fixed; [done |].
  rewrite rstrip_cons by done. simpl. by rewrite Hc.
Qed.

Lemma lstrip_strip s : lstrip (strip s) = strip s.
Proof. apply lstrip_rstrip, lstrip_idem. Qed.

Lemma rstrip_strip s : rstrip (strip s) = strip s.
Proof. apply rstrip_idem. Qed.

Lemma lstrip_take n s : lstrip s = s → lstrip (take n s) = take n s.
Proof.
  intros [-> | (c & r & -> & Hc)]%lstrip_fixed; [by destruct n |].
  destruct n; simpl; [done | by rewrite Hc].
Qed.

Lemma Forall_lstrip (P : N → Prop) s : Forall P s → Forall P (lstrip s).
Proof.
  intros H. destruct (lstrip_split s) as [pre [Hs _]].
  rewrite Hs in H. by apply Forall_app in H as [_ ?].
Qed.

Lemma Forall_rstrip (P : N → Prop) s : Forall P s → Forall P (rstrip s).
Proof.
  intros H. destruct (rstrip_split s) as [post [Hs _]].
  rewrite Hs in H. by apply Forall_app in H as [? _].
Qed.

Lemma lstrip_sublist s : lstrip s `sublist_of` s.
Proof.
  induction s as [|c s IH]; simpl; [done |].
  destruct (isspace c); [by apply sublist_cons | done].
Qed.

Lemma rstrip_sublist s : rstrip s `sublist_of` s.
Proof.
  destruct (rstrip_split s) as [post [Hs _]].
  revert Hs. generalize (rstrip s). intros r ->. by apply sublist_inserts_r.
Qed.

Lemma strip_sublist s : strip s `sublist_of` s.
Proof. etrans; [apply rstrip_sublist | apply lstrip_sublist]. Qed.

Lemma Forall_strip (P : N → Prop) s : Forall P s → Forall P (strip s).
Proof. intros. by apply Forall_rstrip, Forall_lstrip. Qed.

End Strip.

(** ** [sanitize_filename] *)

Lemma sanitize_filename_take title :
  sanitize_filename title = take 200 (strip (clean title)).
Proof.
  unfold sanitize_filename. fold (clean title).
  destruct (200 <? length (strip (clean title)))%nat eqn:Hlen; [done |].
  apply Nat.ltb_ge in Hlen. by rewrite take_ge.
Qed.

Lemma clean_valid title : Forall (λ c, c ∉ invalid_chars) (clean title).
Proof. apply Forall_forall. intros c Hc. by apply list_elem_of_filter in Hc as [? _]. Qed.

Lemma clean_fixed s : Forall (λ c, c ∉ invalid_chars) s → clean s = s.
Proof.
  unfold clean. induction 1 as [|c s Hc _ IH]; [done |].
  rewrite filter_cons_True by done. by rewrite IH.
Qed.

Lemma sanitize_filename_valid title :
  Forall (λ c, c ∉ invalid_chars) (sanitize_filename title).
Proof.
  rewrite sanitize_filename_take. apply Forall_take, Forall_strip, clean_valid.
Qed.

Lemma sanitize_filename_length title : (length (sanitize_filename title) ≤ 200)%nat.
Proof. rewrite sanitize_filename_take. apply firstn_le_length. Qed.

Lemma sanitize_filename_lstrip title :
  lstrip (sanitize_filename title) = sanitize_filename title.
Proof. rewrite sanitize_filename_take. apply lstrip_take, lstrip_strip. Qed.

(** A second pass only trims on the right what the cut at 200 characters
    left there. *)
Lemma sanitize_filename_twice title :
  sanitize_filename (sanitize_filename title) = rstrip (sanitize_filename title).
Proof.
  rewrite (sanitize_filename_take (sanitize_filename title)).
  rewrite clean_fixed by apply sanitize_filename_valid.
  unfold strip at 1. rewrite sanitize_filename_lstrip.
  apply take_ge. etrans; [apply rstrip_length | apply sanitize_filename_length].
Qed.

(** ** Decimal numbers in file names *)

Lemma digits_value_acc_uint u (acc : positive) :
  foldl (λ acc c, 10 * acc + (Z.of_N c - 48)) (Z.pos acc)
    (lit (NilEmpty.string_of_uint u))
  = Z.pos (Pos.of_uint_acc u acc).
Proof.
  revert acc. induction u; intros acc; simpl; [done | ..];
    rewrite <- IHu; f_equal; lia.
Qed.

Lemma digits_value_uint u :
  digits_value (lit (NilEmpty.string_of_uint u)) = Z.of_N (Pos.of_uint u).
Proof.
  unfold digits_value. induction u; simpl; [done | done | ..];
    apply (digits_value_acc_uint u).
Qed.

Lemma string_of_uint_digits u :
  Forall (λ c, isdigit c = true) (lit (NilEmpty.string_of_uint u)).
Proof. induction u; simpl; by constructor. Qed.

Lemma decimal_nonneg (z : Z) :
  (0 ≤ z)%Z → ∃ u, u ≠ Decimal.Nil ∧ decimal z = lit (NilEmpty.string_of_uint u)
               ∧ Z.of_N (Pos.of_uint u) = z.
Proof.
  intros Hz. unfold decimal. destruct z as [|p|p]; [| | lia].
  - by exists (Decimal.D0 Decimal.Nil).
  - exists (Pos.to_uint p). split; [apply DecimalPos.Unsigned.to_uint_nonnil |].
    split; [| by rewrite DecimalPos.Unsigned.of_to].
    simpl. pose proof (DecimalPos.Unsigned.to_uint_nonnil p).
    by destruct (Pos.to_uint p).
Qed.

(** Printing a non-negative number and reading the digits gives it back. *)
Lemma digits_value_decimal (z : Z) : (0 ≤ z)%Z → digits_value (decimal z) = z.
Proof.
  intros (u & _ & -> & Hu)%decimal_nonneg. by rewrite digits_value_uint.
Qed.

Lemma decimal_digits (z : Z) : (0 ≤ z)%Z → Forall (λ c, isdigit c = true) (decimal z).
Proof. intros (u & _ & -> & _)%decimal_nonneg. apply string_of_uint_digits. Qed.

Lemma decimal_nonempty (z : Z) : (0 ≤ z)%Z → decimal z ≠ [].
Proof.
  intros (u & Hu & -> & _)%decimal_nonneg. by destruct u.
Qed.

Lemma format_02d_digits i : Forall (λ c, isdigit c = true) (format_02d i).
Proof.
  unfold format_02d. apply Forall_app. split.
  - by apply Forall_replicate.
  - apply decimal_digits. lia.
Qed.

Lemma digits_value_zeros n s :
  digits_value (replicate n 48%N ++ s) = digits_value s.
Proof. unfold digits_value. induction n; simpl; [done | apply IHn]. Qed.

Lemma format_02d_value i : digits_value (format_02d i) = Z.of_nat i.
Proof.
  unfold format_02d. rewrite digits_value_zeros. apply digits_value_decimal. lia.
Qed.

Lemma leading_digits_app ds c r :
  Forall (λ c, isdigit c = true) ds → isdigit c = false →
  leading_digits (ds ++ c :: r) = ds.
Proof.
  intros Hds Hc. induction Hds as [|d ds Hd _ IH]; simpl; [by rewrite Hc |].
  by rewrite Hd, IH.
Qed.


Lemma format_02d_length i :
  length (format_02d i) = (2 `max` length (decimal (Z.of_nat i)))%nat.
Proof. unfold format_02d. rewrite length_app, length_replicate. lia. Qed.

Lemma format_02d_two_digits i : length (format_02d (i mod 100)) = 2%nat.
Proof.
  assert (Hall : forallb (λ k, length (format_02d k) =? 2)%nat (seq 0 100) = true)
    by (vm_compute; reflexivity).
  rewrite forallb_forall in Hall.
  apply Nat.eqb_eq, Hall, in_seq.
  pose proof (Nat.mod_upper_bound i 100). lia.
Qed.

Lemma lstrip_head s c : lstrip s = s → head s = Some c → isspace c = false.
Proof.
  intros [-> | (c' & r & -> & Hc')]%lstrip_fixed; simpl; intros; by simplify_eq.
Qed.

Lemma strip_ends s :
  (∀ c, head (strip s) = Some c → isspace c = false)
  ∧ (∀ c, last (strip s) = Some c → isspace c = false).
Proof.
  split; intros c Hc.
  - by apply (lstrip_head (strip s)); [apply lstrip_strip |].
  - unfold strip, rstrip in Hc. rewrite last_reverse in Hc.
    by apply (lstrip_head (lstrip (reverse (lstrip s)))); [apply lstrip_idem |].
Qed.

Lemma lstrip_app_blank pre s : blank pre → lstrip (pre ++ s) = lstrip s.
Proof. induction 1 as [|c pre Hc _ IH]; simpl; [done | by rewrite Hc]. Qed.

Lemma lstrip_blank s : blank s → lstrip s = [].
Proof. intros H. by rewrite <- (app_nil_r s), lstrip_app_blank. Qed.

Lemma lstrip_keeps s c : head s = Some c → isspace c = false → lstrip s = s.
Proof. destruct s as [|c' r]; simpl; intros Hhead Hc; simplify_eq. by rewrite Hc. Qed.

(** Whatever stands between two blank margins and neither begins nor ends
    with white space is what [strip] returns. *)
Lemma strip_unique s pre core post :
  s = pre ++ core ++ post → blank pre → blank post →
  (∀ c, head core = Some c → isspace c = false) →
  (∀ c, last core = Some c → isspace c = false) →
  strip s = core.
Proof.
  intros -> Hpre Hpost Hhead Hlast. unfold strip.
  rewrite lstrip_app_blank by done.
  destruct core as [|c r] eqn:Hcore.
  { simpl. by rewrite lstrip_blank. }
  rewrite <- Hcore in *.
  assert (Hl : lstrip (core ++ post) = core ++ post).
  { apply (lstrip_keeps _ c); [by rewrite Hcore | apply Hhead; by rewrite Hcore]. }
  rewrite Hl. unfold rstrip.
  rewrite reverse_app, lstrip_app_blank by (by apply Forall_reverse).
  destruct (last core) as [d|] eqn:Hd.
  - rewrite (lstrip_keeps _ d); [by rewrite reverse_involutive | | by apply Hlast].
    by rewrite head_reverse.
  - apply last_None in Hd. by rewrite Hd in Hcore.
Qed.

(** C6 (as amended): [sanitize_filename] drops the nine invalid characters
    and nothing else, trims white space at both ends of what is left and
    keeps at most the first 200 characters of that, inserting nothing. What
    is left after the nine characters are dropped splits into a blank
    margin, a core that neither begins nor ends with white space, and a
    blank margin; the result is the first 200 characters of the core, and
    every such split gives the same result. The output name is the index in
    decimal digits, padded with zeros to two digits (more digits from 100
    on), an underscore, the sanitized title and the extension; the title
    [Chapter: One/Two?] becomes [Chapter OneTwo], the inner space kept. *)
Theorem sanitize_filename_shape (title : pystr) (i : nat) :
  let safe := sanitize_filename title in
  (∃ pre core post,
     filter (λ c, c ∉ invalid_chars) title = pre ++ core ++ post
     ∧ blank pre ∧ blank post
     ∧ (∀ c, head core = Some c → isspace c = false)
     ∧ (∀ c, last core = Some c → isspace c = false)
     ∧ safe = take 200 core)
  ∧ (∀ pre core post,
       filter (λ c, c ∉ invalid_chars) title = pre ++ core ++ post →
       blank pre → blank post →
       (∀ c, head core = Some c → isspace c = false) →
       (∀ c, last core = Some c → isspace c = false) →
       safe = take 200 core)
  ∧ Forall (λ c, c ∉ invalid_chars) safe
  ∧ lstrip safe = safe
  ∧ (length safe = 200%nat ∨ rstrip safe = safe)
  ∧ (length safe ≤ 200)%nat
  ∧ safe `sublist_of` title
  ∧ chapter_filename i safe = format_02d i ++ [95%N] ++ safe ++ lit ".mp3"
  ∧ Forall (λ c, isdigit c = true) (format_02d i)
  ∧ digits_value (format_02d i) = Z.of_nat i
  ∧ length (format_02d i) = (2 `max` length (decimal (Z.of_nat i)))%nat
  ∧ length (format_02d (i mod 100)) = 2%nat
  ∧ sanitize_filename (lit "Chapter: One/Two?") = lit "Chapter OneTwo".
Proof.
  intros safe. subst safe.
  split.
  { destruct (lstrip_split (clean title)) as [pre [Hpre Hblank]].
    destruct (rstrip_split (lstrip (clean title))) as [post [Hpost Hblank']].
    fold (strip (clean title)) in Hpost.
    destruct (strip_ends (clean title)) as [Hhead Hlast].
    exists pre, (strip (clean title)), post.
    split; [fold (clean title); by rewrite <- Hpost |].
    do 4 (split; [done |]). apply sanitize_filename_take. }
  split.
  { intros pre core post Hsplit Hpre Hpost Hhead Hlast.
    rewrite sanitize_filename_take.
    by rewrite (strip_unique (clean title) pre core post). }
  split; [apply sanitize_filename_valid |].
  assert (Hcap : length (sanitize_filename title) = 200%nat
                 ∨ sanitize_filename title = strip (clean title)).
  { rewrite sanitize_filename_take.
    destruct (decide (200 ≤ length (strip (clean title)))%nat).
    - left. rewrite length_take. lia.
    - right. apply take_ge. lia. }
  split; [apply sanitize_filename_lstrip |].
  split.
  { destruct Hcap as [? | ->]; [by left | right]. apply rstrip_strip. }
  split; [apply sanitize_filename_length |].
  split.
  { rewrite sanitize_filename_take. etrans; [apply sublist_take |].
    etrans; [apply strip_sublist | apply sublist_filter]. }
  split; [done |].
  split; [apply format_02d_digits |].
  split; [apply format_02d_value |].
  split; [apply format_02d_length |].
  split; [apply format_02d_two_digits |].
  vm_compute. reflexivity.
Qed.

(** C6, as the specification words it: the example title does not become
    [ChapterOneTwo], the space after the colon stays; and from index 100 on
    the number takes three digits. *)
Lemma sanitize_filename_example_keeps_space :
  sanitize_filename (lit "Chapter: One/Two?") ≠ lit "ChapterOneTwo"
  ∧ sanitize_filename (lit "Chapter: One/Two?") = lit "Chapter OneTwo"
  ∧ chapter_filename 100 (lit "End") = lit "100_End.mp3".
Proof.
  assert (H : sanitize_filename (lit "Chapter: One/Two?") = lit "Chapter OneTwo")
    by (vm_compute; reflexivity).
  split; [rewrite H; discriminate |]. split; [done | vm_compute; reflexivity].
Qed.

(** C7 (as amended): on a title whose cleaned and trimmed form has at most
    200 characters, so that the cut removes nothing, a second pass of
    [sanitize_filename] changes nothing. *)
Theorem sanitize_filename_idempotent_short (x : pystr)
    (Hshort : (length (strip (clean x)) ≤ 200)%nat) :
  sanitize_filename (sanitize_filename x) = sanitize_filename x.
Proof.
  rewrite sanitize_filename_twice, sanitize_filename_take.
  rewrite take_ge by done. apply rstrip_strip.
Qed.

Lemma sanitize_filename_idempotent_short_witness :
  (length (strip (clean (lit " Part 1: The <Beginning> "))) ≤ 200)%nat
  ∧ sanitize_filename (sanitize_filename (lit " Part 1: The <Beginning> "))
    = sanitize_filename (lit " Part 1: The <Beginning> ").
Proof.
  split; [vm_compute; lia |].
  apply (sanitize_filename_idempotent_short (lit " Part 1: The <Beginning> ")).
  vm_compute; lia.
Defined.

(** C7, as the specification words it: on [long_title] the first pass ends
    in the space at position 200 and the second pass trims it. *)
Lemma sanitize_filename_not_idempotent :
  sanitize_filename (sanitize_filename long_title) ≠ sanitize_filename long_title
  ∧ sanitize_filename long_title = replicate 199 97%N ++ lit " "
  ∧ sanitize_filename (sanitize_filename long_title) = replicate 199 97%N.
Proof.
  assert (H1 : sanitize_filename long_title = replicate 199 97%N ++ lit " ")
    by (vm_compute; reflexivity).
  assert (H2 : sanitize_filename (sanitize_filename long_title) = replicate 199 97%N)
    by (vm_compute; reflexivity).
  split; [| done]. rewrite H2, H1. intros H.
  apply (f_equal length) in H. rewrite length_app, !length_replicate in H. discriminate.
Qed.

(** ** Floats *)

Section Floats.

Local Open Scope Z_scope.

Lemma round_half_even_cases n d :
  0 < d →
  (round_half_even n d = n / d ∧ 2 * (n mod d) ≤ d)
  ∨ (round_half_even n d = n / d + 1 ∧ d ≤ 2 * (n mod d)).
Proof.
  intros Hd. unfold round_half_even.
  destruct (Z.ltb_spec (2 * (n mod d)) d); [left; lia |].
  destruct (Z.ltb_spec d (2 * (n mod d))); [right; lia |].
  destruct (Z.even (n / d)); [left | right]; lia.
Qed.

Lemma pow2_nonneg k : 0 ≤ k → pow2 k = 2 ^ k.
Proof. intros. unfold pow2. by rewrite Z.max_r. Qed.

Lemma pow2_nonpos k : k ≤ 0 → pow2 k = 1.
Proof. intros. unfold pow2. by rewrite Z.max_l. Qed.

Lemma int_of_Q_Qeq p q : Qeq p q → int_of_Q p = int_of_Q q.
Proof.
  unfold Qeq, int_of_Q. intros Heq.
  rewrite <- (Z.quot_mul_cancel_r (Qnum p) (Z.pos (Qden p)) (Z.pos (Qden q))) by done.
  rewrite Heq, (Z.mul_comm (Z.pos (Qden p))).
  by rewrite Z.quot_mul_cancel_r.
Qed.

Lemma float_overflow_Qeq p q : Qeq p q → float_overflow p = float_overflow q.
Proof.
  unfold Qeq, float_overflow. intros Heq.
  assert (Habs : Z.abs (Qnum p) * Z.pos (Qden q) = Z.abs (Qnum q) * Z.pos (Qden p)).
  { rewrite <- (Z.abs_eq (Z.pos (Qden q))), <- (Z.abs_eq (Z.pos (Qden p))) by lia.
    by rewrite <- !Z.abs_mul, Heq. }
  assert (0 < 2 ^ 1024) by (by apply Z.pow_pos_nonneg).
  set (K := 2 ^ 1024) in *. clearbody K.
  destruct (Z.leb_spec (K * Z.pos (Qden p)) (Z.abs (Qnum p))),
    (Z.leb_spec (K * Z.pos (Qden q)) (Z.abs (Qnum q))); try done; nia.
Qed.

(** Below 2^53 the float nearest to [n / 1000] lies between [n / 1000]
    truncated and the next integer. *)
Lemma nearest_float_thousandth n :
  0 < n < 2 ^ 53 →
  ∃ m shift,
    nearest_float (n # 1000) = (m, shift)
    ∧ 9 ≤ shift
    ∧ (n / 1000) * 2 ^ shift ≤ m < (n / 1000 + 1) * 2 ^ shift.
Proof.
  intros [Hpos Hlt]. unfold nearest_float. simpl Qnum. simpl Qden.
  rewrite Z.abs_eq by lia.
  destruct (Z.eqb_spec n 0) as [-> |_]; [lia |].
  rewrite Z.sgn_pos by done.
  assert (Hlog : Z.log2 n ≤ 52).
  { apply Z.log2_lt_pow2 in Hlt; [lia | done]. }
  assert (Hk : exponent n 1000 ≤ 43).
  { unfold exponent. change (Z.log2 1000) with 9. destruct (_ <=? _); lia. }
  set (shift := 52 - exponent n 1000). assert (Hshift : 9 ≤ shift) by (unfold shift; lia).
  eexists _, shift. split; [done |]. split; [done |].
  rewrite (pow2_nonneg shift), (pow2_nonpos (- shift)) by lia.
  assert (HP : 512 ≤ 2 ^ shift).
  { change 512 with (2 ^ 9). apply Z.pow_le_mono_r; lia. }
  set (P := 2 ^ shift) in *. clearbody P. clear shift Hshift Hk Hlog Hlt.
  rewrite !Z.mul_1_r, Z.mul_1_l.
  pose proof (Z.div_mod n 1000 ltac:(lia)) as Hn.
  pose proof (Z.mod_pos_bound n 1000 ltac:(lia)) as Hr0.
  pose proof (Z.div_mod (n * P) 1000 ltac:(lia)) as HN.
  pose proof (Z.mod_pos_bound (n * P) 1000 ltac:(lia)) as Hr.
  set (q0 := n / 1000) in *. set (r0 := n mod 1000) in *.
  set (q := n * P / 1000) in *. set (r := (n * P) mod 1000) in *.
  assert (HA : n * P = 1000 * (q0 * P) + r0 * P) by (rewrite Hn; ring).
  assert (HB : 0 ≤ r0 * P ≤ 999 * P) by nia.
  set (A := q0 * P) in *. set (B := r0 * P) in *.
  destruct (round_half_even_cases (n * P) 1000 ltac:(lia)) as [[-> H1] | [-> H1]];
    fold q r in H1 |- *; lia.
Qed.

(** On an [int] of magnitude below 2^53, [int(z / 1000)] is the integer
    quotient truncated towards zero: the rounding of the quotient to a float
    never reaches the next integer. *)
Lemma int_true_div_exact z :
  Z.abs z < 2 ^ 53 → int_true_div z 1000 = Ok (Z.quot z 1000).
Proof.
  intros Hz. unfold int_true_div, true_div.
  assert (Hmain : ∀ n, 0 < n < 2 ^ 53 → ∀ sign, sign = 1 ∨ sign = -1 →
    float_overflow (float_of_Q (sign * n # 1000)) = false
    ∧ int_of_Q (float_of_Q (sign * n # 1000)) = sign * (n / 1000)).
  { intros n Hn sign Hsign.
    destruct (nearest_float_thousandth n Hn) as (m & shift & Hnear & Hshift & Hm).
    assert (Hnear' : nearest_float (sign * n # 1000) = (sign * m, shift)).
    { revert Hnear. unfold nearest_float. simpl Qnum. simpl Qden.
      replace (Z.abs (sign * n)) with (Z.abs n) by lia.
      destruct (Z.abs n =? 0) eqn:H0; [lia |].
      intros [= <- <-]. f_equal.
      rewrite Z.sgn_mul. destruct Hsign as [-> | ->]; simpl Z.sgn; ring. }
    unfold float_of_Q. rewrite Hnear'.
    rewrite (pow2_nonneg shift), (pow2_nonpos (- shift)), Z.mul_1_r by lia.
    assert (HP : 0 < 2 ^ shift) by (apply Z.pow_pos_nonneg; lia).
    set (P := 2 ^ shift) in *.
    assert (Hn53 : n / 1000 + 1 ≤ 2 ^ 53).
    { pose proof (Z.div_le_upper_bound n 1000 n ltac:(lia) ltac:(lia)). lia. }
    assert (Hq : m / P = n / 1000).
    { symmetry. apply Z.div_unique_pos with (r := m - n / 1000 * P); lia. }
    assert (Hbig : 2 ^ 53 < 2 ^ 1024) by (by apply Z.pow_lt_mono_r).
    assert (Hq0 : 0 ≤ n / 1000) by (apply Z.div_pos; lia).
    assert (Hm0 : 0 ≤ m) by nia.
    rewrite (float_overflow_Qeq _ _ (Qred_correct _)), (int_of_Q_Qeq _ _ (Qred_correct _)).
    unfold float_overflow, int_of_Q. simpl Qnum. simpl Qden. rewrite Z2Pos.id by done.
    destruct Hsign as [-> | ->].
    - rewrite !Z.mul_1_l, Z.abs_eq, Z.quot_div_nonneg by lia.
      split; [apply Z.leb_gt; nia | done].
    - replace (-1 * m) with (- m) by lia.
      rewrite Z.abs_opp, Z.abs_eq, Z.quot_opp_l, Z.quot_div_nonneg by lia.
      split; [apply Z.leb_gt; nia | lia]. }
  destruct (Z.lt_trichotomy z 0) as [Hneg | [-> | Hpos]]; [| done |].
  - destruct (Hmain (- z) ltac:(lia) (-1) ltac:(lia)) as [Hover Hint].
    replace (-1 * - z) with z in * by lia. simpl Z.to_pos. rewrite Hover, Hint.
    f_equal. rewrite <- (Z.opp_involutive z) at 2.
    rewrite Z.quot_opp_l, Z.quot_div_nonneg by lia. lia.
  - destruct (Hmain z ltac:(lia) 1 ltac:(lia)) as [Hover Hint].
    rewrite Z.mul_1_l in *. simpl Z.to_pos. rewrite Hover, Hint.
    f_equal. rewrite Z.quot_div_nonneg by lia. lia.
Qed.

End Floats.

(** ** [fetch_chapters] *)

Lemma int_div_1000_value v ms :
  int_value v = Some ms → (Z.abs ms < 2 ^ 53)%Z → int_div_1000 v = Ok (Z.quot ms 1000).
Proof.
  destruct v as [|b|z|s]; simpl; intros ? ?; simplify_eq; by apply int_true_div_exact.
Qed.

Lemma int_div_1000_Raise v e :
  int_div_1000 v = Raise e → e = TypeError ∨ e = OverflowError.
Proof.
  unfold int_div_1000, int_true_div, true_div.
  destruct v as [|b|z|s]; try (intros [= <-]; by left);
    destruct (float_overflow _); intros [= <-]; by right.
Qed.

Lemma process_chapter_value chapter ms :
  length_ms chapter = Some ms → (Z.abs ms < 2 ^ 53)%Z →
  process_chapter chapter = Ok (processed_entry chapter ms).
Proof.
  unfold length_ms, process_chapter. intros H Hms.
  by rewrite (int_div_1000_value _ _ H Hms).
Qed.

Lemma process_chapter_Ok chapter entry :
  exact_length chapter →
  process_chapter chapter = Ok entry →
  ∃ ms, length_ms chapter = Some ms ∧ entry = processed_entry chapter ms.
Proof.
  intros (ms & Hms & Hexact) H. exists ms. split; [done |].
  rewrite (process_chapter_value _ _ Hms Hexact) in H. by simplify_eq.
Qed.

(** Whenever the loop ends normally, the processed list matches the raw
    list entry by entry. *)
Lemma process_chapters_Ok raw processed :
  Forall exact_length raw →
  process_chapters raw = Ok processed →
  Forall2 (λ chapter entry,
    ∃ ms, length_ms chapter = Some ms ∧ entry = processed_entry chapter ms) raw processed.
Proof.
  intros Hexact. revert processed.
  induction Hexact as [|chapter raw Hchapter _ IH]; simpl; intros processed H.
  - simplify_eq. constructor.
  - destruct (process_chapter chapter) as [entry|] eqn:Hentry; [| done].
    destruct (process_chapters raw) as [rest|]; [| done].
    simplify_eq. constructor; [by apply process_chapter_Ok | by apply IH].
Qed.

(** The loop raises nothing but the [TypeError] and the [OverflowError] of
    the division. *)
Lemma process_chapters_Raise raw e :
  process_chapters raw = Raise e → e = TypeError ∨ e = OverflowError.
Proof.
  induction raw as [|chapter raw IH]; simpl; [done |].
  unfold process_chapter.
  destruct (int_div_1000 _) as [duration|e'] eqn:Hdiv.
  - destruct (process_chapters raw); intros; simplify_eq. by apply IH.
  - intros [= <-]. by apply int_div_1000_Raise in Hdiv.
Qed.

(** The loop ends normally when every [lengthMs] is absent or an integer a
    float holds exactly. *)
Lemma process_chapters_total raw :
  Forall exact_length raw →
  ∃ processed, process_chapters raw = Ok processed.
Proof.
  induction 1 as [|chapter raw (ms & Hms & Hexact) _ [rest IH]]; simpl; [by eexists |].
  rewrite (process_chapter_value _ _ Hms Hexact), IH. by eexists.
Qed.

Lemma processed_entry_lookup chapter ms :
  processed_entry chapter ms !! "title" = Some (default (PStr (lit "Unknown")) (chapter !! "title"))
  ∧ processed_entry chapter ms !! "start" = Some (default (PInt 0) (chapter !! "startOffsetSec"))
  ∧ processed_entry chapter ms !! "duration" = Some (PInt (Z.quot ms 1000)).
Proof. unfold processed_entry. by simplify_map_eq. Qed.

(** C10 (as amended): when every [lengthMs] of the answer is absent or an
    integer of magnitude below 2^53, [fetch_chapters] gives one entry per
    raw chapter, in the same order, whose [start] is the raw
    [startOffsetSec] (0 if absent), whose [duration] is [lengthMs] divided by
    1000 and truncated (0 if absent) and whose [title] is the raw [title]
    ([Unknown] if absent). When some [lengthMs] is [None] or a string, the
    division raises and [fetch_chapters] returns [None]: no chapter of the
    answer is returned. *)
Theorem fetch_chapters_entries (w : World) (asin : pystr) (raw : list dict) (st : State)
    (Hresp : requests_chapters w asin = ChaptersData raw) :
  (Forall exact_length raw →
   ∃ processed,
     (fetch_chapters w asin st).1 = Ok (Some processed)
     ∧ fs (fetch_chapters w asin st).2 = fs st
     ∧ length processed = length raw
     ∧ ∀ i chapter, raw !! i = Some chapter →
         ∃ entry ms,
           processed !! i = Some entry
           ∧ length_ms chapter = Some ms
           ∧ entry !! "start" = Some (default (PInt 0) (chapter !! "startOffsetSec"))
           ∧ entry !! "duration" = Some (PInt (Z.quot ms 1000))
           ∧ entry !! "title" = Some (default (PStr (lit "Unknown")) (chapter !! "title"))
           ∧ (chapter !! "lengthMs" = None → entry !! "duration" = Some (PInt 0)))
  ∧ (Exists (λ chapter, ∃ v, chapter !! "lengthMs" = Some v ∧ int_value v = None) raw →
     (fetch_chapters w asin st).1 = Ok None
     ∧ fs (fetch_chapters w asin st).2 = fs st).
Proof.
  split.
  - intros Hnum.
    destruct (process_chapters_total raw Hnum) as [processed Hproc].
    exists processed.
    unfold fetch_chapters. run_step. rewrite Hresp. run_step. rewrite Hproc. simpl.
    split; [done |]. split; [done |].
    apply process_chapters_Ok in Hproc; [| done].
    split; [symmetry; by eapply Forall2_length |].
    intros i chapter Hi.
    destruct (Forall2_lookup_l _ _ _ _ _ Hproc Hi) as (entry & Hentry & ms & Hms & ->).
    exists (processed_entry chapter ms), ms.
    destruct (processed_entry_lookup chapter ms) as (Ht & Hs & Hd).
    repeat split; try done.
    intros Habs. unfold length_ms in Hms. rewrite Habs in Hms. simpl in Hms.
    by simplify_eq.
  - intros Hbad.
    assert (Hraise : ∃ e, process_chapters raw = Raise e ∧ e ≠ RequestException false).
    { clear Hresp. induction Hbad as [chapter rest (v & Hv & Hnone) | chapter rest _ IH].
      - exists TypeError. split; [| done]. simpl. unfold process_chapter.
        rewrite Hv. simpl. by destruct v.
      - destruct IH as (e & IH & He). simpl. rewrite IH.
        destruct (process_chapter chapter) as [entry|e'] eqn:Hentry; [by exists e |].
        exists e'. split; [done |]. unfold process_chapter in Hentry.
        destruct (int_div_1000 _) as [d|e''] eqn:Hdiv; [done |].
        simplify_eq. by destruct (int_div_1000_Raise _ _ Hdiv) as [-> | ->]. }
    destruct Hraise as (e & Hraise & He).
    unfold fetch_chapters. run_step. rewrite Hresp. run_step. rewrite Hraise. simpl.
    by destruct e as [| | | | | | | | | |[]].
Qed.

Lemma fetch_chapters_entries_witness :
  let st := demo_state three_parts in
  let asin := lit "B0D12345AB" in
  Forall exact_length mixed_chapters
  ∧ ∃ processed,
      (fetch_chapters mixed_world asin st).1 = Ok (Some processed)
      ∧ fs (fetch_chapters mixed_world asin st).2 = fs st
      ∧ length processed = length mixed_chapters
      ∧ ∀ i chapter, mixed_chapters !! i = Some chapter →
          ∃ entry ms,
            processed !! i = Some entry
            ∧ length_ms chapter = Some ms
            ∧ entry !! "start" = Some (default (PInt 0) (chapter !! "startOffsetSec"))
            ∧ entry !! "duration" = Some (PInt (Z.quot ms 1000))
            ∧ entry !! "title" = Some (default (PStr (lit "Unknown")) (chapter !! "title"))
            ∧ (chapter !! "lengthMs" = None → entry !! "duration" = Some (PInt 0)).
Proof.
  intros st asin.
  assert (Hexact : Forall exact_length mixed_chapters)
    by (repeat constructor; eexists; (split; [reflexivity | reflexivity])).
  split; [exact Hexact |].
  destruct (fetch_chapters_entries mixed_world (lit "B0D12345AB") mixed_chapters
              (demo_state three_parts) eq_refl) as [Hentries _].
  exact (Hentries Hexact).
Defined.

(** On the sample: 300999 milliseconds give 300 seconds, a missing length
    gives 0, and the entries come in the order of the answer. *)
Example fetch_chapters_sample :
  (fetch_chapters mixed_world (lit "B0D12345AB") (demo_state three_parts)).1
  = Ok (Some [entry "Intro" 0 300; entry "Outro" 300 0]).
Proof. reflexivity. Qed.

(** C10, as the specification words it, for every raw chapter: a chapter
    whose [lengthMs] is a string has no processed entry, and the chapter
    before it is lost with it, [fetch_chapters] returns [None]; and for a
    [lengthMs] beyond 2^53 the duration is the float quotient truncated,
    one more than [lengthMs] divided by 1000 and truncated. *)
Lemma fetch_chapters_bad_length_gives_none :
  let asin := lit "B0D12345AB" in
  let raw := [raw_chapter "Intro" 0 (Some 300000); bad_length_chapter] in
  let huge := raw_chapter "Long" 0 (Some 9007199254740993999) in
  requests_chapters bad_length_world asin = ChaptersData raw
  ∧ bad_length_chapter !! "lengthMs" = Some (PStr (lit "n/a"))
  ∧ (fetch_chapters bad_length_world asin (demo_state three_parts)).1 = Ok None
  ∧ (∀ processed,
       (fetch_chapters bad_length_world asin (demo_state three_parts)).1
       ≠ Ok (Some processed))
  ∧ process_chapter huge = Ok (entry "Long" 0 9007199254740994)
  ∧ Z.quot 9007199254740993999 1000 = 9007199254740993%Z.
Proof.
  split; [reflexivity |]. split; [reflexivity |].
  assert (Hnone : (fetch_chapters bad_length_world (lit "B0D12345AB")
                     (demo_state three_parts)).1 = Ok None) by reflexivity.
  split; [done |]. split; [by rewrite Hnone |].
  split; [vm_compute; reflexivity | reflexivity].
Qed.

(** ** Running the program *)

Lemma new_events_app st st' evs : log st' = log st ++ evs → new_events st st' = evs.
Proof. unfold new_events. intros ->. by rewrite drop_app_length. Qed.

Lemma runs_app evs1 evs2 : runs (evs1 ++ evs2) = runs evs1 ++ runs evs2.
Proof. unfold runs. apply omap_app. Qed.

Section Sweep.

Variable w : World.

(** [tag_file] always returns, leaves the files as they are and logs at
    most the one save. *)
Lemma tag_file_spec file_path chapter track_num total_tracks book st :
  ∃ evs,
    tag_file w file_path chapter track_num total_tracks book st
      = (Ok (), {| fs := fs st; log := log st ++ evs |})
    ∧ Forall is_cut_event evs ∧ runs evs = [].
Proof.
  assert (Hnone : ∀ r : result (), r = Ok () →
    ∃ evs, (r, st) = (Ok (), {| fs := fs st; log := log st ++ evs |})
           ∧ Forall is_cut_event evs ∧ runs evs = []).
  { intros r ->. exists []. rewrite app_nil_r. destruct st. by split. }
  unfold tag_file. run_step.
  destruct (mutagen_MP3 w file_path) as [audio|]; run_step; [| by apply Hnone].
  destruct (tag_frames chapter track_num total_tracks book) as [frames|]; run_step;
    [| by apply Hnone].
  destruct (mutagen_save w file_path); run_step; [| by apply Hnone].
  exists [EvSave file_path frames].
  split; [done |]. split; [by repeat constructor | done].
Qed.

(** One pass of the loop body: it never raises, it reports exactly
    whether the extraction succeeded, it runs the planned command if there
    is one, and it removes nothing. *)
Lemma split_chapter_spec input_path total book i chapter st :
  ∃ st' evs,
    split_chapter w input_path total book i chapter st
      = (Ok (cut_succeeds w input_path (i, chapter)), st')
    ∧ log st' = log st ++ evs
    ∧ Forall is_cut_event evs
    ∧ runs evs = option_list (planned_cmd w input_path i chapter)
    ∧ fs st ⊆ fs st'.
Proof.
  unfold split_chapter, cut_succeeds, planned_cmd. simpl.
  destruct (default _ (chapter !! "title")) as [| | |title] eqn:Htitle;
    run_step; try (exists st, []; rewrite app_nil_r; by split).
  unfold subprocess_run.
  set (cmd := split_cmd _ _ _ _).
  destruct (ffmpeg w cmd) as [|returncode written] eqn:Hff; simpl.
  { eexists _, [EvRun cmd ProcRaised]. simpl.
    split; [done |]. split; [done |]. split; [by repeat constructor | by split]. }
  destruct (decide (returncode = 0)) as [-> | Hrc].
  - simpl.
    edestruct tag_file_spec as (evs & -> & Hcut & Hruns). simpl.
    eexists _, (EvRun cmd (ProcExited 0 written) :: evs). simpl.
    split; [done |]. split; [by rewrite <- app_assoc |].
    split; [by constructor |]. split; [unfold runs in *; simpl; by rewrite Hruns |].
    destruct written; set_solver.
  - rewrite bool_decide_true, bool_decide_false by done.
    eexists _, [EvRun cmd (ProcExited returncode written)]. simpl.
    split; [done |]. split; [done |]. split; [by repeat constructor |].
    split; [done |]. destruct written; set_solver.
Qed.

Lemma sweep_spec input_path total book chapters : ∀ i n st,
  ∃ st' evs,
    sweep w input_path total book i chapters n st
      = (Ok (n + length (filter (λ ic, Is_true (cut_succeeds w input_path ic))
                           (enumerate i chapters)))%nat, st')
    ∧ log st' = log st ++ evs
    ∧ Forall is_cut_event evs
    ∧ runs evs = omap (λ ic, planned_cmd w input_path ic.1 ic.2) (enumerate i chapters)
    ∧ fs st ⊆ fs st'.
Proof.
  induction chapters as [|chapter rest IH]; intros i n st; simpl.
  - exists st, []. rewrite app_nil_r, Nat.add_0_r. by repeat split.
  - run_step.
    destruct (split_chapter_spec input_path total book i chapter st)
      as (st1 & evs1 & -> & Hlog1 & Hcut1 & Hruns1 & Hfs1).
    destruct (IH (S i) (if cut_succeeds w input_path (i, chapter) then S n else n) st1)
      as (st2 & evs2 & -> & Hlog2 & Hcut2 & Hruns2 & Hfs2).
    exists st2, (evs1 ++ evs2). split.
    { f_equal. f_equal.
      destruct (cut_succeeds w input_path (i, chapter)) eqn:Hok.
      - rewrite filter_cons_True by (simpl; by rewrite ?Hok). simpl. lia.
      - rewrite filter_cons_False by (simpl; rewrite ?Hok; by intros []). done. }
    split; [by rewrite Hlog2, Hlog1, app_assoc |].
    split; [by apply Forall_app |].
    split; [| set_solver].
    rewrite runs_app, Hruns1, Hruns2. simpl.
    by destruct (planned_cmd w input_path i chapter).
Qed.

Lemma filter_length_all {A} (P : A → Prop) `{∀ x, Decision (P x)} (l : list A) :
  length (filter P l) = length l ↔ Forall P l.
Proof.
  split.
  - induction l as [|x l IH]; [constructor |].
    destruct (decide (P x)).
    + rewrite filter_cons_True by done. simpl. intros ?. constructor; [done | apply IH; lia].
    + rewrite filter_cons_False by done. simpl. intros Hlen.
      pose proof (length_filter P l). lia.
  - induction 1; [done |]. rewrite filter_cons_True by done. simpl. lia.
Qed.

Lemma enumerate_length {A} i (l : list A) : length (enumerate i l) = length l.
Proof. revert i. induction l; intros; simpl; [done | by rewrite IHl]. Qed.

Lemma enumerate_lookup {A} i (l : list A) k x :
  l !! k = Some x ↔ enumerate i l !! k = Some ((i + k)%nat, x).
Proof.
  revert i k. induction l as [|y l IH]; intros i k; [done |].
  destruct k; simpl.
  - rewrite Nat.add_0_r. split; intros; by simplify_eq.
  - rewrite (IH (S i) k). by rewrite Nat.add_succ_r.
Qed.

(** [split_by_chapters] never raises; it answers whether every extraction
    succeeded, and the commands it ran are the planned ones of all entries,
    in order. *)
Lemma split_by_chapters_spec input_file chapters book st :
  let input_path := path_join (folder_path w) input_file in
  ∃ st' evs,
    split_by_chapters w input_file chapters book st
      = (Ok (forallb (cut_succeeds w input_path) (enumerate 1 chapters)), st')
    ∧ log st' = log st ++ evs
    ∧ Forall is_cut_event evs
    ∧ runs evs = omap (λ ic, planned_cmd w input_path ic.1 ic.2) (enumerate 1 chapters)
    ∧ fs st ⊆ fs st'.
Proof.
  intros input_path. unfold split_by_chapters. run_step. fold input_path.
  destruct (sweep_spec input_path (length chapters) book chapters 1 0 st)
    as (st' & evs & -> & Hlog & Hcut & Hruns & Hfs).
  exists st', evs. split; [| done]. f_equal. f_equal. simpl.
  apply eq_bool_prop_intro.
  rewrite bool_decide_spec, forallb_True.
  rewrite <- (enumerate_length 1 chapters).
  apply filter_length_all.
Qed.

End Sweep.

Lemma enumerate_elem {A} i (l : list A) k x : (k, x) ∈ enumerate i l → x ∈ l.
Proof.
  revert i. induction l as [|y l IH]; intros i; simpl; [by intros ?%elem_of_nil |].
  intros [? | ?]%elem_of_cons; [simplify_eq; by left | right; by eapply IH].
Qed.

Lemma new_events_split_by_chapters w input_file chapters book st :
  let input_path := path_join (folder_path w) input_file in
  let run := split_by_chapters w input_file chapters book st in
  run.1 = Ok (forallb (cut_succeeds w input_path) (enumerate 1 chapters))
  ∧ runs (new_events st run.2)
    = omap (λ ic, planned_cmd w input_path ic.1 ic.2) (enumerate 1 chapters)
  ∧ Forall is_cut_event (new_events st run.2)
  ∧ fs st ⊆ fs run.2.
Proof.
  intros input_path run. subst run.
  destruct (split_by_chapters_spec w input_file chapters book st)
    as (st' & evs & -> & Hlog & Hcut & Hruns & Hfs). simpl.
  by rewrite (new_events_app _ _ _ Hlog).
Qed.

Lemma planned_cmd_title w input_path i chapter title :
  chapter !! "title" = Some (PStr title) →
  planned_cmd w input_path i chapter
  = Some (split_cmd input_path
            (py_str (default (PInt 0) (chapter !! "start")))
            (py_str (default (PInt 0) (chapter !! "duration")))
            (path_join (folder_path w) (chapter_filename i (sanitize_filename title)))).
Proof. unfold planned_cmd. by intros ->. Qed.

Lemma planned_cmd_duration w input_path i chapter cmd :
  planned_cmd w input_path i chapter = Some cmd →
  cmd !! 6%nat = Some (py_str (entry_duration chapter))
  ∧ cmd !! 4%nat = Some (py_str (default (PInt 0) (chapter !! "start"))).
Proof.
  unfold planned_cmd. destruct (default _ (chapter !! "title")); intros; by simplify_eq.
Qed.

(** ** The duration of an entry (C1) *)

(** C1 (as amended): when the raw chapters carry no [lengthMs], or a zero
    one, every entry gets the duration 0, whatever the start offsets and
    whatever the total duration: the duration of an entry is always the one
    declared in the entry itself, no difference of boundaries is taken, and
    every extraction is run with [-t 0]. *)
Theorem declared_durations_only (raw : list dict)
    (Hraw : Forall (λ chapter, chapter !! "lengthMs" = None
                               ∨ chapter !! "lengthMs" = Some (PInt 0)) raw) :
  ∃ entries,
    process_chapters raw = Ok entries
    ∧ length entries = length raw
    ∧ Forall (λ entry, entry !! "duration" = Some (PInt 0)) entries
    ∧ sum_durations entries = 0
    ∧ ∀ (w : World) input_file book st,
        Forall (λ cmd, cmd !! 6%nat = Some (lit "0"))
          (runs (new_events st (split_by_chapters w input_file entries book st).2)).
Proof.
  assert (Hms : Forall (λ chapter, length_ms chapter = Some 0) raw).
  { eapply Forall_impl; [exact Hraw |]. unfold length_ms. by intros chapter [-> | ->]. }
  assert (Hexact : Forall exact_length raw).
  { eapply Forall_impl; [exact Hms |]. intros chapter Hzero. by exists 0%Z. }
  destruct (process_chapters_total raw Hexact) as [entries Hentries].
  exists entries. split; [done |].
  apply process_chapters_Ok in Hentries; [| done].
  split; [symmetry; by eapply Forall2_length |].
  assert (Hzero : Forall (λ entry, entry !! "duration" = Some (PInt 0)) entries).
  { apply Forall_forall. intros entry Hentry.
    apply list_elem_of_lookup in Hentry as [k Hk].
    destruct (Forall2_lookup_r _ _ _ _ _ Hentries Hk) as (chapter & Hchapter & ms & Hlen & ->).
    rewrite Forall_forall in Hms.
    rewrite (Hms chapter) in Hlen by (by eapply list_elem_of_lookup_2).
    simplify_eq. apply processed_entry_lookup. }
  split; [done |]. split.
  { clear -Hzero. induction Hzero as [|entry entries Hd _ IH]; [done |].
    simpl. unfold entry_duration. by rewrite Hd, IH. }
  intros w input_file book st.
  destruct (new_events_split_by_chapters w input_file entries book st) as (_ & -> & _).
  apply Forall_forall. intros cmd Hcmd.
  apply list_elem_of_omap in Hcmd as ([i entry] & Hin & Hplan). simpl in Hplan.
  apply planned_cmd_duration in Hplan as [-> _].
  rewrite Forall_forall in Hzero. unfold entry_duration.
  rewrite (Hzero entry) by (by eapply enumerate_elem). done.
Qed.

Lemma declared_durations_only_witness :
  ∃ entries,
    process_chapters offsets_only = Ok entries
    ∧ length entries = length offsets_only
    ∧ Forall (λ entry, entry !! "duration" = Some (PInt 0)) entries
    ∧ sum_durations entries = 0
    ∧ ∀ (w : World) input_file book st,
        Forall (λ cmd, cmd !! 6%nat = Some (lit "0"))
          (runs (new_events st (split_by_chapters w input_file entries book st).2)).
Proof.
  apply (declared_durations_only offsets_only).
  repeat constructor.
Defined.

(** C1, as the specification words it: with three files of 600 seconds and
    the start offsets 0, 300 and 1200, the boundary rule asks for 300, 900
    and 600 seconds, summing to the total; the run cuts each entry with a
    duration of 0. *)
Lemma boundary_rule_not_applied :
  let w := demo_world three_parts true true (ChaptersData offsets_only) always_exit_0 in
  let run := process_folder w (demo_state three_parts) in
  let entries := (λ chapter, processed_entry chapter 0) <$> offsets_only in
  calculate_total_duration w (get_mp3_files w) 0 = Ok 1800%Q
  ∧ boundary_durations [0; 300; 1200] 1800 = [300; 900; 600]
  ∧ cut_windows (log run.2)
    = [(lit "0", lit "0"); (lit "300", lit "0"); (lit "1200", lit "0")]
  ∧ process_chapters offsets_only = Ok entries
  ∧ entry_duration <$> entries = [PInt 0; PInt 0; PInt 0]
  ∧ entry_duration <$> entries ≠ PInt <$> boundary_durations [0; 300; 1200] 1800
  ∧ sum_durations entries ≠ 1800 - 0.
Proof.
  intros w run entries.
  assert (Hd : entry_duration <$> entries = [PInt 0; PInt 0; PInt 0])
    by (vm_compute; reflexivity).
  assert (Hs : sum_durations entries = 0) by (vm_compute; reflexivity).
  split; [vm_compute; reflexivity |]. split; [reflexivity |].
  split; [vm_compute; reflexivity |].
  split; [reflexivity |].
  split; [done |].
  rewrite Hd, Hs. split; discriminate.
Qed.

(** ** The sweep (C3, C5) *)

(** C3 (as amended): the sweep goes through every entry whatever happened
    to the entries before it, running the command of each one; it always
    returns, and it reports success exactly when the extraction of every
    entry succeeded. Tagging has no part in the verdict: a world that
    differs only in what mutagen does gives the same answer. *)
Theorem sweep_verdict (w w' : World) (input_file : pystr) (chapters : list dict)
    (book : Book) (st : State)
    (Hfolder : folder_path w' = folder_path w)
    (Htool : ffmpeg w' = ffmpeg w) :
  let input_path := path_join (folder_path w) input_file in
  let run := split_by_chapters w input_file chapters book st in
  run.1 = Ok (forallb (cut_succeeds w input_path) (enumerate 1 chapters))
  ∧ runs (new_events st run.2)
    = omap (λ ic, planned_cmd w input_path ic.1 ic.2) (enumerate 1 chapters)
  ∧ (split_by_chapters w' input_file chapters book st).1 = run.1.
Proof.
  intros input_path run. subst run.
  destruct (new_events_split_by_chapters w input_file chapters book st)
    as (Hres & Hruns & _).
  split; [done |]. split; [done |].
  destruct (new_events_split_by_chapters w' input_file chapters book st) as (-> & _).
  rewrite Hres, Hfolder. fold input_path.
  do 2 f_equal. unfold cut_succeeds, planned_cmd. by rewrite Hfolder, Htool.
Qed.

Lemma sweep_verdict_witness :
  let st := demo_state three_parts in
  let input_path := path_join (folder_path taggable_world) combined_file in
  let run := split_by_chapters taggable_world combined_file three_entries demo_book st in
  run.1 = Ok (forallb (cut_succeeds taggable_world input_path) (enumerate 1 three_entries))
  ∧ runs (new_events st run.2)
    = omap (λ ic, planned_cmd taggable_world input_path ic.1 ic.2) (enumerate 1 three_entries)
  ∧ (split_by_chapters untaggable_world combined_file three_entries demo_book st).1 = run.1.
Proof.
  apply (sweep_verdict taggable_world untaggable_world combined_file three_entries
           demo_book (demo_state three_parts)); reflexivity.
Defined.

(** C3, as the specification words it: when the tagging of every entry
    fails, the sweep still reports success. *)
Lemma tagging_failure_not_counted :
  let st := demo_state three_parts in
  let run := split_by_chapters untaggable_world combined_file three_entries demo_book st in
  mutagen_save untaggable_world = (λ _, false)
  ∧ run.1 = Ok true
  ∧ length (runs (new_events st run.2)) = 3%nat
  ∧ Forall (λ e, ¬ is_save e) (new_events st run.2).
Proof.
  split; [reflexivity |]. split; [vm_compute; reflexivity |].
  split; [vm_compute; reflexivity |].
  assert (Hev : new_events (demo_state three_parts)
            (split_by_chapters untaggable_world combined_file three_entries demo_book
               (demo_state three_parts)).2
          = (λ cmd, EvRun cmd (ProcExited 0 true))
              <$> omap (λ ic, planned_cmd untaggable_world
                                (path_join (folder_path untaggable_world) combined_file)
                                ic.1 ic.2) (enumerate 1 three_entries))
    by (vm_compute; reflexivity).
  simpl. rewrite Hev. apply Forall_fmap, Forall_forall. by intros cmd _ [].
Qed.

(** C5 (as amended): no entry is checked against the total duration or
    for a negative length. Every entry whose title is a string is cut with
    the start and the duration it carries, under its position in the input
    order, and the commands of the sweep are those of all entries in that
    order: nothing is excluded and nothing is renumbered. *)
Theorem every_entry_is_cut (w : World) (input_file : pystr) (chapters : list dict)
    (book : Book) (st : State) (k : nat) (chapter : dict) (title : pystr)
    (Hk : chapters !! k = Some chapter)
    (Htitle : chapter !! "title" = Some (PStr title)) :
  let input_path := path_join (folder_path w) input_file in
  let evs := new_events st (split_by_chapters w input_file chapters book st).2 in
  let cmd := split_cmd input_path
               (py_str (default (PInt 0) (chapter !! "start")))
               (py_str (default (PInt 0) (chapter !! "duration")))
               (path_join (folder_path w) (chapter_filename (S k) (sanitize_filename title))) in
  runs evs = omap (λ ic, planned_cmd w input_path ic.1 ic.2) (enumerate 1 chapters)
  ∧ planned_cmd w input_path (S k) chapter = Some cmd
  ∧ cmd ∈ runs evs.
Proof.
  intros input_path evs cmd. subst evs.
  destruct (new_events_split_by_chapters w input_file chapters book st) as (_ & Hruns & _).
  pose proof (planned_cmd_title w input_path (S k) chapter title Htitle) as Hplan.
  split; [done |]. split; [done |].
  rewrite Hruns. apply list_elem_of_omap. exists (S k, chapter). split; [| done].
  apply list_elem_of_lookup. exists k.
  exact (proj1 (enumerate_lookup 1 chapters k chapter) Hk).
Qed.

Lemma every_entry_is_cut_witness :
  let w := demo_world three_parts true true (ChaptersData out_of_range) always_exit_0 in
  let late := entry "Late" 5000 600 in
  let chapters := [entry "Intro" 0 300; late; entry "Back" 100 (-5)] in
  let input_path := path_join (folder_path w) combined_file in
  let evs := new_events (demo_state three_parts)
               (split_by_chapters w combined_file chapters demo_book
                  (demo_state three_parts)).2 in
  let cmd := split_cmd input_path (lit "5000") (lit "600")
               (lit "/books/mother/02_Late.mp3") in
  runs evs = omap (λ ic, planned_cmd w input_path ic.1 ic.2) (enumerate 1 chapters)
  ∧ planned_cmd w input_path 2 late = Some cmd
  ∧ cmd ∈ runs evs.
Proof.
  intros w late chapters.
  apply (every_entry_is_cut w combined_file chapters demo_book (demo_state three_parts)
           1 late (lit "Late")); reflexivity.
Defined.

(** C5, as the specification words it: with three files of 600 seconds, an
    entry that ends at 5600 seconds and an entry of negative length are both
    cut like the others, under the numbers 02 and 03. *)
Lemma out_of_range_entries_kept :
  let w := demo_world three_parts true true (ChaptersData out_of_range) always_exit_0 in
  let run := process_folder w (demo_state three_parts) in
  calculate_total_duration w (get_mp3_files w) 0 = Ok 1800%Q
  ∧ run.1 = Ok true
  ∧ cut_windows (new_events (demo_state three_parts) run.2)
    = [(lit "0", lit "300"); (lit "5000", lit "600"); (lit "100", lit "-5")]
  ∧ cmd_output <$> runs (new_events (demo_state three_parts) run.2)
    = [lit "/books/mother/combined_temp.mp3"; lit "/books/mother/01_Intro.mp3";
       lit "/books/mother/02_Late.mp3"; lit "/books/mother/03_Back.mp3"].
Proof. repeat split; vm_compute; reflexivity. Qed.

(** ** The session *)

Section Session.

Variable w : World.

Lemma logged_nil st : logged st [] = st.
Proof. unfold logged. rewrite app_nil_r. by destruct st. Qed.

Lemma logged_app st evs1 evs2 : logged (logged st evs1) evs2 = logged st (evs1 ++ evs2).
Proof. unfold logged. simpl. by rewrite app_assoc. Qed.

Lemma fetch_book_metadata_run metadata st :
  fetch_book_metadata w metadata st
  = (resolved_book w metadata, logged st [search_request metadata]).
Proof.
  unfold fetch_book_metadata, resolved_book, asked. run_step.
  destruct (requests_search w (search_query metadata)) as [[]|[]|[|first rest]];
    simpl; try done.
  - by destruct (manual_search w).
  - by destruct (get_user_choice w (first :: rest)).
Qed.

Lemma fetch_chapters_run asin st :
  fetch_chapters w asin st = (fetched_chapters w asin, logged st [chapters_request asin]).
Proof.
  unfold fetch_chapters, fetched_chapters. run_step.
  destruct (requests_chapters w asin) as [[]|[]| |raw]; simpl; try done.
  destruct (process_chapters raw) as [chapters|e] eqn:Hraw; [done |].
  by destruct (process_chapters_Raise _ _ Hraw) as [-> | ->].
Qed.

(** Up to the cut, [process_folder] is its plan. *)
Lemma process_folder_plan st :
  process_folder w st =
  match session_plan w with
  | GiveUp requests => (Ok false, logged st requests)
  | Cut requests book chapters =>
      caught (cut_and_cleanup w (get_mp3_files w) (original_files w) chapters book
                (logged st requests))
  end.
Proof.
  unfold process_folder, session_plan, original_files.
  destruct (get_mp3_files w) as [|first_name rest] eqn:Hfiles.
  { run_step. by rewrite logged_nil. }
  generalize (calculate_total_duration w (first_name :: rest) 0).
  destruct (get_metadata_from_file w _) as [metadata|]; intros duration; run_step;
    [| by rewrite logged_nil].
  destruct (bool_decide (metadata = ∅)); run_step; [by rewrite logged_nil |].
  destruct duration as [total|]; run_step; [| by rewrite logged_nil].
  rewrite fetch_book_metadata_run.
  destruct (resolved_book w _) as [[book|]|]; run_step; try done.
  destruct (book_truthy book); run_step; [| done].
  destruct (book_asin book) as [asin|]; run_step; [| done].
  rewrite fetch_chapters_run. rewrite logged_app. simpl.
  by destruct (fetched_chapters w asin) as [[[|chapter chapters]|]|]; run_step.
Qed.

Lemma session_plan_requests :
  match session_plan w with
  | GiveUp requests => Forall is_request requests
  | Cut requests book chapters =>
      Forall is_request requests
      ∧ chapters ≠ []
      ∧ get_mp3_files w ≠ []
      ∧ ∃ asin raw, book_asin book = Some asin
          ∧ requests_chapters w asin = ChaptersData raw
          ∧ process_chapters raw = Ok chapters
  end.
Proof.
  unfold session_plan.
  destruct (get_mp3_files w) as [|first_name rest] eqn:Hfiles; [constructor |].
  destruct (get_metadata_from_file w _) as [metadata|]; [| constructor].
  destruct (bool_decide (metadata = ∅)); [constructor |].
  destruct (calculate_total_duration w (first_name :: rest) 0) as [total|]; [| constructor].
  destruct (resolved_book w _) as [[book|]|]; try (by repeat constructor).
  destruct (book_truthy book); simpl; [| by repeat constructor].
  destruct (book_asin book) as [asin|] eqn:Hasin; [| by repeat constructor].
  unfold fetched_chapters.
  destruct (requests_chapters w asin) as [[]|[]| |raw] eqn:Hraw; try (by repeat constructor).
  destruct (process_chapters raw) as [[|chapter chapters]|] eqn:Hproc;
    try (by repeat constructor).
  split; [by repeat constructor |]. split; [done |]. split; [done |].
  by exists asin, raw.
Qed.

End Session.

(** ** The manifest is not an input file *)



Lemma path_join_last a b c : last b = Some c → last (path_join a b) = Some c.
Proof.
  intros Hc. unfold path_join.
  destruct (startswith b (lit "/")); [done |].
  destruct (bool_decide (a = []) || endswith a (lit "/")).
  - rewrite last_app. by rewrite Hc.
  - rewrite !last_app. by rewrite Hc.
Qed.




(** ** Concatenation, cleanup, and the cut as a whole *)

Section Cut.

Variable w : World.

Ltac log_solver :=
  first
    [ exists []; split; [by rewrite app_nil_r |]
    | eexists; split; [simpl; rewrite <- ?app_assoc; reflexivity |] ];
  (split; [repeat constructor; done | simpl; intros; set_solver]).

(** Whatever way [combine_mp3_files] ends, it logs only the writing of
    the manifest, the concatenation and the removal of the manifest, and no
    other file disappears. *)
Lemma combine_mp3_files_spec mp3_files st :
  ∃ setup,
    log (combine_mp3_files w mp3_files st).2 = log st ++ setup
    ∧ Forall is_combine_event setup
    ∧ ∀ path, path ≠ file_list → path ∈ fs st → path ∈ fs (combine_mp3_files w mp3_files st).2.
Proof.
  assert (Hmany : ∀ files,
    ∃ setup,
      let run :=
        try_finally
          (try_except
             (open_write w file_list (manifest w files);;
              returncode ← subprocess_run w
                (concat_cmd (path_join (folder_path w) combined_file))
                (path_join (folder_path w) combined_file);
              if bool_decide (returncode ≠ 0) then raise CalledProcessError
              else mret combined_file)
             (λ e, raise e))
          (present ← os_path_exists file_list;
           if present : bool then os_remove w file_list else mret ()) st in
      log run.2 = log st ++ setup
      ∧ Forall is_combine_event setup
      ∧ ∀ path, path ≠ file_list → path ∈ fs st → path ∈ fs run.2).
  { intros files. unfold open_write, subprocess_run, os_remove. run_step.
    destruct (open_ok w file_list); simpl.
    - destruct (ffmpeg w _) as [|returncode written]; simpl.
      + repeat (rewrite bool_decide_true by set_solver).
        destruct (remove_ok w file_list); simpl; log_solver.
      + destruct (bool_decide (returncode ≠ 0)); simpl;
          repeat (rewrite bool_decide_true by (destruct written; set_solver));
          destruct (remove_ok w file_list); destruct written; simpl; log_solver.
    - destruct (decide (file_list ∈ fs st)).
      + repeat (rewrite bool_decide_true by done).
        destruct (remove_ok w file_list); simpl; log_solver.
      + repeat (rewrite bool_decide_false by done). simpl. log_solver. }
  unfold combine_mp3_files.
  destruct mp3_files as [|only [|second rest]]; [apply Hmany | | apply Hmany].
  run_step. log_solver.
Qed.

Lemma remove_originals_spec originals : ∀ ok st,
  ∃ ok' st' cleanup,
    remove_originals w originals ok st = (Ok ok', st')
    ∧ log st' = log st ++ cleanup
    ∧ Forall is_removal cleanup.
Proof.
  induction originals as [|path rest IH]; intros ok st; simpl.
  - run_step. exists ok, st, []. by rewrite app_nil_r.
  - unfold os_remove. run_step.
    destruct (decide (path ∈ fs st));
      [repeat (rewrite bool_decide_true by done)
      | repeat (rewrite bool_decide_false by done)]; simpl.
    + destruct (remove_ok w path); simpl.
      * edestruct IH as (ok' & st' & cleanup & -> & Hlog & Hrm).
        exists ok', st', (EvRemove path true :: cleanup).
        split; [done |]. rewrite Hlog. simpl.
        split; [by rewrite <- app_assoc | by constructor].
      * edestruct IH as (ok' & st' & cleanup & -> & Hlog & Hrm).
        exists ok', st', (EvRemove path false :: cleanup).
        split; [done |]. rewrite Hlog. simpl.
        split; [by rewrite <- app_assoc | by constructor].
    + apply IH.
Qed.

End Cut.

Section CutAndCleanup.

Variable w : World.

#[local] Arguments combine_mp3_files : simpl never.
#[local] Arguments split_by_chapters : simpl never.
#[local] Arguments remove_originals : simpl never.

(** The cut either stops in the concatenation, or it sweeps once, and
    then everything it logs is cleanup; when the sweep reports a failure the
    cleanup removes nothing at all. *)
Lemma cut_and_cleanup_spec mp3_files originals chapters book st :
  let run := cut_and_cleanup w mp3_files originals chapters book st in
  (∃ e setup,
     run.1 = Raise e
     ∧ log run.2 = log st ++ setup
     ∧ Forall is_combine_event setup
     ∧ ∀ path, path ≠ file_list → path ∈ fs st → path ∈ fs run.2)
  ∨ (∃ input_file st1 st2 setup b cleanup,
       log st1 = log st ++ setup
       ∧ Forall is_combine_event setup
       ∧ (∀ path, path ≠ file_list → path ∈ fs st → path ∈ fs st1)
       ∧ split_by_chapters w input_file chapters book st1 = (Ok b, st2)
       ∧ run.1 = Ok b
       ∧ log run.2 = log st2 ++ cleanup
       ∧ Forall (λ e, ¬ is_cut_event e) cleanup
       ∧ (b = false → fs run.2 = fs st2 ∧ Forall (λ e, ¬ is_removal e) cleanup)).
Proof.
  intros run. subst run. unfold cut_and_cleanup.
  assert (HC : ∃ setup,
    let C := (if bool_decide (1 < length mp3_files)%nat then combine_mp3_files w mp3_files
              else mret (default [] (head mp3_files))) in
    log (C st).2 = log st ++ setup
    ∧ Forall is_combine_event setup
    ∧ ∀ path, path ≠ file_list → path ∈ fs st → path ∈ fs (C st).2).
  { destruct (bool_decide (1 < length mp3_files)%nat); [apply combine_mp3_files_spec |].
    exists []. simpl. rewrite app_nil_r. by split. }
  destruct HC as (setup & HC). revert HC.
  generalize (if bool_decide (1 < length mp3_files)%nat then combine_mp3_files w mp3_files
              else mret (default [] (head mp3_files))).
  intros C (Hlog1 & Hsetup & Hkeep1). run_step.
  destruct (C st) as [[input_file|e] st1]; simpl in *.
  2: { left. by exists e, setup. }
  right.
  destruct (split_by_chapters_spec w input_file chapters book st1)
    as (st2 & sweep_evs & Hsplit & Hlog2 & Hcut & _ & Hfs2).
  simpl in Hsplit. rewrite Hsplit.
  set (b := forallb _ _) in *. clearbody b.
  exists input_file, st1, st2, setup, b.
  destruct b; simpl.
  - destruct (remove_originals_spec w originals true st2)
      as (ok & st3 & cleanup & -> & Hlog3 & Hrm).
    assert (Hnocut : Forall (λ e, ¬ is_cut_event e) cleanup).
    { eapply Forall_impl; [exact Hrm |]. intros e He Hc. by destruct e. }
    destruct (bool_decide (1 < length mp3_files)%nat); simpl.
    + unfold os_remove.
      destruct (decide (path_join (folder_path w) combined_file ∈ fs st3));
        [repeat (rewrite bool_decide_true by done)
        | repeat (rewrite bool_decide_false by done)]; simpl.
      * destruct (remove_ok w _); simpl;
          eexists; (split; [done |]); (split; [done |]); (split; [done |]);
          (split; [done |]); (split; [done |]);
          (split; [rewrite Hlog3, <- !app_assoc; reflexivity |]);
          (split; [| done]);
          (apply Forall_app; split; [done |]); repeat constructor; by intros [].
      * eexists. do 5 (split; [done |]).
        split; [rewrite Hlog3, <- !app_assoc; reflexivity |].
        split; [| done]. apply Forall_app. split; [done |]. repeat constructor; by intros [].
    + eexists. do 5 (split; [done |]).
      split; [rewrite Hlog3, <- !app_assoc; reflexivity |].
      split; [| done]. apply Forall_app. split; [done |]. repeat constructor; by intros [].
  - exists [EvReport SplittingFailed]. do 5 (split; [done |]).
    split; [done |]. split; [repeat constructor; by intros [] |].
    intros _. split; [done |]. repeat constructor; by intros [].
Qed.

End CutAndCleanup.

Lemma caught_snd run : (caught run).2 = run.2.
Proof. by destruct run as [[b|e] st]. Qed.


Lemma split_by_chapters_log w input_file chapters book st b st' :
  split_by_chapters w input_file chapters book st = (Ok b, st') →
  b = forallb (cut_succeeds w (path_join (folder_path w) input_file)) (enumerate 1 chapters)
  ∧ (∃ sweep_evs, log st' = log st ++ sweep_evs ∧ Forall is_cut_event sweep_evs)
  ∧ fs st ⊆ fs st'.
Proof.
  destruct (split_by_chapters_spec w input_file chapters book st)
    as (st2 & evs & Hrun & Hlog & Hcut & _ & Hfs).
  simpl in Hrun. rewrite Hrun. intros ?. simplify_eq. eauto.
Qed.

(** The cut only appends to the log. *)
Lemma cut_and_cleanup_log w mp3_files originals chapters book st :
  ∃ evs, log (cut_and_cleanup w mp3_files originals chapters book st).2 = log st ++ evs.
Proof.
  destruct (cut_and_cleanup_spec w mp3_files originals chapters book st)
    as [(e & setup & _ & Hlog & _)
       | (input_file & st1 & st2 & setup & b & cleanup & Hlog1 & _ & _ & Hsplit & _ & Hlog3 & _)].
  - by exists setup.
  - apply split_by_chapters_log in Hsplit as (_ & (sweep_evs & Hlog2 & _) & _).
    exists (setup ++ sweep_evs ++ cleanup).
    by rewrite Hlog3, Hlog2, Hlog1, <- !app_assoc.
Qed.





(** ** Removal of the input files (C2) *)


(** The two sides of the theorem on sample runs: with every extraction
    successful the three input files are removed at the end; with every
    extraction failing they all stay. *)
Example originals_removed_on_success :
  let run := process_folder taggable_world (demo_state three_parts) in
  run.1 = Ok true
  ∧ filter (removes (original_files taggable_world)) (new_events (demo_state three_parts) run.2)
    = [EvRemove (lit "/books/mother/part1.mp3") true;
       EvRemove (lit "/books/mother/part2.mp3") true;
       EvRemove (lit "/books/mother/part3.mp3") true].
Proof. split; vm_compute; reflexivity. Qed.

Example originals_kept_on_failure :
  let w := demo_world three_parts true true (ChaptersData well_formed) cuts_exit_1 in
  let run := process_folder w (demo_state three_parts) in
  run.1 = Ok false
  ∧ filter (removes (original_files w)) (new_events (demo_state three_parts) run.2) = []
  ∧ bool_decide (list_to_set (original_files w) ⊆ fs run.2) = true.
Proof. repeat split; vm_compute; reflexivity. Qed.


(** ** An empty list of chapters (C4) *)

(** The sweep itself has nothing against an empty list: the guard of
    [process_folder] is what rejects it. *)
Lemma split_by_chapters_nil w input_file book st :
  split_by_chapters w input_file [] book st = (Ok true, st).
Proof. reflexivity. Qed.



(** On the sample the session reaches the chapters request and stops
    there. *)
Example empty_chapter_list_run :
  session_plan no_chapters_world
  = GiveUp [search_request (<["lengthMinutes" := PInt 30]> fallback_metadata);
            chapters_request (lit "B0D12345AB")].
Proof. reflexivity. Qed.

(** ** The transient files (C8) *)

(** C8, on a run that concatenates two files and then fails to cut: the
    manifest is gone at the end, the intermediate file
    [combined_temp.mp3] is still in the folder. Its removal sits in the
    branch taken only when the sweep reports success. *)
Lemma combined_file_left_after_failed_sweep :
  let st := demo_state two_parts in
  let run := process_folder failing_cut_world st in
  let intermediate := path_join (folder_path failing_cut_world) combined_file in
  run.1 = Ok false
  ∧ EvRun (concat_cmd intermediate) (ProcExited 0 true) ∈ new_events st run.2
  ∧ (intermediate ∉ fs st)
  ∧ (intermediate ∈ fs run.2)
  ∧ (file_list ∉ fs run.2)
  ∧ Forall (λ e, ¬ removes [intermediate] e) (new_events st run.2).
Proof.
  intros st run intermediate.
  split; [vm_compute; reflexivity |].
  split; [apply (bool_decide_unpack _); vm_compute; exact I |].
  split; [apply (bool_decide_unpack _); vm_compute; exact I |].
  split; [apply (bool_decide_unpack _); vm_compute; exact I |].
  split; apply (bool_decide_unpack _); vm_compute; exact I.
Qed.

(** When the sweep succeeds the intermediate file is removed. *)
Example combined_file_removed_after_success :
  let run := process_folder taggable_world (demo_state three_parts) in
  let intermediate := path_join (folder_path taggable_world) combined_file in
  run.1 = Ok true ∧ (intermediate ∉ fs run.2) ∧ (file_list ∉ fs run.2).
Proof.
  split; [vm_compute; reflexivity |].
  split; apply (bool_decide_unpack _); vm_compute; exact I.
Qed.

(** ** Metadata of the first file (C9) *)




(** A search answer that does not decode, under [requests] 2.27 or later:
    the file carries no tags, the search is issued with the fallback, and
    the session ends with [False] although the manual search would have
    found the book. *)
Example undecodable_search_ends_session :
  let w := undecodable_world in
  let st := demo_state ["part1.mp3"] in
  get_metadata_from_file w (lit "/books/mother/part1.mp3") = Some fallback_metadata
  ∧ manual_search w = Ok (Some demo_book)
  ∧ process_folder w st
    = (Ok false, logged st [search_request (<["lengthMinutes" := PInt 10]> fallback_metadata)]).
Proof. repeat split; reflexivity. Qed.


(** * Further properties of the code *)

(** ** The names of the chapter files *)

Lemma chapter_filename_leading i safe :
  leading_digits (chapter_filename i safe) = format_02d i.
Proof.
  unfold chapter_filename. simpl.
  apply leading_digits_app; [apply format_02d_digits | done].
Qed.

(** X1: The file name of a chapter starts with its index: reading the digits
    in front of the name gives the index back, whatever the title is (a
    title made of digits does not interfere, the underscore ends the
    number). *)
Theorem chapter_filename_index (i : nat) (safe_title : pystr) :
  leading_number (chapter_filename i safe_title) = Z.of_nat i.
Proof.
  unfold leading_number. rewrite chapter_filename_leading. apply format_02d_value.
Qed.

Lemma chapter_filename_relative i safe :
  startswith (chapter_filename i safe) (lit "/") = false.
Proof.
  unfold chapter_filename.
  pose proof (format_02d_digits i) as Hd.
  assert (Hne : format_02d i ≠ []).
  { unfold format_02d. intros [_ H]%app_eq_nil. revert H. apply decimal_nonempty. lia. }
  destruct (format_02d i) as [|d ds]; [done |].
  apply Forall_cons in Hd as [Hd _].
  unfold startswith. apply bool_decide_eq_false. simpl. intros [= ->]. done.
Qed.

Lemma path_join_relative (w : World) name :
  startswith name (lit "/") = false →
  path_join (folder_path w) name = folder_path w ++ folder_sep w ++ name.
Proof.
  intros Hrel. unfold path_join, folder_sep. rewrite Hrel.
  by destruct (bool_decide (folder_path w = []) || endswith (folder_path w) (lit "/")).
Qed.

Lemma planned_cmd_output w input_path i chapter cmd :
  planned_cmd w input_path i chapter = Some cmd →
  ∃ title,
    default (PStr (lit "Chapter " ++ decimal (Z.of_nat i))) (chapter !! "title") = PStr title
    ∧ cmd_output cmd
      = folder_path w ++ folder_sep w ++ chapter_filename i (sanitize_filename title).
Proof.
  unfold planned_cmd.
  destruct (default _ (chapter !! "title")) as [| | |title]; intros; simplify_eq.
  exists title. split; [done |].
  unfold cmd_output. simpl. apply path_join_relative, chapter_filename_relative.
Qed.

(** X2: Two entries at different positions never write to the same file, even
    when their titles sanitize to the same fragment: the index in front
    keeps the names apart. *)
Theorem distinct_entries_distinct_outputs (w : World) (input_path : pystr)
    (i j : nat) (chapter1 chapter2 : dict) (cmd1 cmd2 : list pystr)
    (Hcmd1 : planned_cmd w input_path i chapter1 = Some cmd1)
    (Hcmd2 : planned_cmd w input_path j chapter2 = Some cmd2)
    (Hij : i ≠ j) :
  cmd_output cmd1 ≠ cmd_output cmd2.
Proof.
  apply planned_cmd_output in Hcmd1 as (title1 & _ & ->).
  apply planned_cmd_output in Hcmd2 as (title2 & _ & ->).
  intros Heq. apply app_inv_head, app_inv_head in Heq.
  apply (f_equal leading_number) in Heq. unfold leading_number in Heq.
  rewrite !chapter_filename_leading, !format_02d_value in Heq. lia.
Qed.

Lemma distinct_entries_distinct_outputs_witness :
  let w := taggable_world in
  let input_path := path_join (folder_path w) combined_file in
  ∃ cmd1 cmd2,
    omap (λ ic, planned_cmd w input_path ic.1 ic.2) (enumerate 1 same_title_entries)
    = [cmd1; cmd2]
    ∧ cmd_output cmd1 ≠ cmd_output cmd2.
Proof.
  intros w input_path. eexists _, _. split; [reflexivity |].
  apply (distinct_entries_distinct_outputs w input_path 1 2
           (entry "Interlude" 0 60) (entry "Interlude" 60 90));
    [reflexivity | reflexivity | lia].
Defined.

Lemma endswith_app (a b : pystr) : endswith (a ++ b) b = true.
Proof.
  unfold endswith. apply bool_decide_eq_true.
  rewrite length_app, Nat.add_sub. apply drop_app_length.
Qed.

(** X3: Every file the sweep asks ffmpeg to write lies directly in the folder:
    its path is the folder, the separator and a name without a slash that
    ends in [.mp3], whatever the chapter titles contain. *)
Theorem outputs_stay_in_folder (w : World) (input_file : pystr) (chapters : list dict)
    (book : Book) (st : State) :
  Forall (λ cmd, ∃ name,
            cmd_output cmd = folder_path w ++ folder_sep w ++ name
            ∧ (47%N ∉ name)
            ∧ endswith name (lit ".mp3") = true)
    (runs (new_events st (split_by_chapters w input_file chapters book st).2)).
Proof.
  destruct (new_events_split_by_chapters w input_file chapters book st) as (_ & -> & _).
  apply Forall_forall. intros cmd ([i chapter] & _ & Hplan)%list_elem_of_omap.
  simpl in Hplan. apply planned_cmd_output in Hplan as (title & _ & ->).
  eexists. split; [done |]. split.
  - unfold chapter_filename. rewrite !elem_of_app. intros [H | [H | [H | H]]].
    + pose proof (format_02d_digits i) as Hd. rewrite Forall_forall in Hd.
      by specialize (Hd _ H).
    + revert H. apply (bool_decide_unpack _). by vm_compute.
    + pose proof (sanitize_filename_valid title) as Hv. rewrite Forall_forall in Hv.
      apply (Hv _ H). apply (bool_decide_unpack _). by vm_compute.
    + revert H. apply (bool_decide_unpack _). by vm_compute.
  - unfold chapter_filename. rewrite !(app_assoc _ _ (lit ".mp3")).
    apply endswith_app.
Qed.

(** ** Titles that leave nothing *)

Lemma lstrip_nil_blank (s : pystr) : lstrip s = [] ↔ blank s.
Proof.
  split.
  - intros H. destruct (lstrip_split s) as [pre [Hs Hpre]].
    rewrite H, app_nil_r in Hs. by subst.
  - induction 1 as [|c s Hc _ IH]; simpl; [done | by rewrite Hc].
Qed.

Lemma strip_nil_blank (s : pystr) : strip s = [] ↔ blank s.
Proof.
  rewrite <- lstrip_nil_blank. unfold strip. split.
  - intros H. pose proof (lstrip_idem s) as Hidem.
    apply lstrip_fixed in Hidem as [Hnil | (c & r & Hs & Hc)]; [done |].
    rewrite Hs, rstrip_cons in H by done. done.
  - by intros ->.
Qed.

(** X4: [sanitize_filename] gives the empty string exactly for the titles made
    of nothing but invalid characters and white space; such a chapter is
    written to a file named by its number alone, as in [07_.mp3]. *)
Theorem sanitize_filename_empty (title : pystr) (i : nat) :
  (sanitize_filename title = [] ↔ blank (clean title))
  ∧ (sanitize_filename title = [] ↔
     chapter_filename i (sanitize_filename title) = format_02d i ++ lit "_.mp3").
Proof.
  split.
  - rewrite sanitize_filename_take, <- strip_nil_blank.
    destruct (strip (clean title)); simpl; [done |]. split; intros; done.
  - unfold chapter_filename. split; [by intros -> |].
    intros H. apply app_inv_head in H. simpl in H.
    destruct (sanitize_filename title) as [|c s]; [done |].
    exfalso. simpl in H. injection H as Hc Hs.
    apply (f_equal length) in Hs. rewrite length_app in Hs. simpl in Hs. lia.
Qed.

(** ** [get_mp3_files] *)

Lemma str_leb_total (a b : pystr) : str_leb a b = true ∨ str_leb b a = true.
Proof.
  revert b. induction a as [|x a IH]; intros [|y b]; simpl; auto.
  destruct (N.ltb_spec x y), (N.ltb_spec y x); auto; lia.
Qed.

Lemma str_leb_trans (a b c : pystr) :
  str_leb a b = true → str_leb b c = true → str_leb a c = true.
Proof.
  revert b c. induction a as [|x a IH]; intros [|y b] [|z c]; simpl; try done.
  destruct (N.ltb_spec x y), (N.ltb_spec y x), (N.ltb_spec y z), (N.ltb_spec z y),
    (N.ltb_spec x z), (N.ltb_spec z x); try done; try lia.
  apply IH.
Qed.

Lemma str_le_total : Total str_le.
Proof.
  intros a b. unfold str_le. destruct (str_leb_total a b) as [-> | ->]; simpl; auto.
Qed.

Lemma str_le_trans : Transitive str_le.
Proof.
  intros a b c. unfold str_le. intros H1%Is_true_eq_true H2%Is_true_eq_true.
  by rewrite (str_leb_trans _ _ _ H1 H2).
Qed.

(** X5: [get_mp3_files] returns the names of the listing that end in [.mp3],
    in any letter case, each as often as it is listed and nothing else, in
    ascending order of their code points; when the folder cannot be listed
    it returns the empty list instead of failing. *)
Theorem get_mp3_files_sorted (w : World) :
  match os_listdir w with
  | Some names =>
      get_mp3_files w ≡ₚ filter mp3_name names
      ∧ StronglySorted str_le (get_mp3_files w)
      ∧ Forall mp3_name (get_mp3_files w)
  | None => get_mp3_files w = []
  end.
Proof.
  pose proof str_le_total as Htotal. pose proof str_le_trans as Htrans.
  unfold get_mp3_files. destruct (os_listdir w) as [names|]; [| done].
  split; [apply merge_sort_Permutation |].
  split; [apply (StronglySorted_merge_sort str_le) |].
  rewrite merge_sort_Permutation. apply Forall_forall.
  by intros f [Hf _]%list_elem_of_filter.
Qed.

Example get_mp3_files_sample :
  get_mp3_files tagged_world = [lit "a.mp3"; lit "b.MP3"].
Proof. reflexivity. Qed.

(** ** [calculate_total_duration] *)

Lemma calculate_total_duration_acc w files : ∀ acc,
  match calculate_total_duration w files acc with
  | Ok total =>
      Forall (readable w) files
      ∧ total = foldl (λ sum f, float_add sum (length_of w f)) acc files
  | Raise e => e = MutagenError ∧ Exists (λ f, ¬ readable w f) files
  end.
Proof.
  induction files as [|f files IH]; intros acc.
  - simpl. split; [constructor | done].
  - change (calculate_total_duration w (f :: files) acc)
      with (match mutagen_MP3 w (path_join (folder_path w) f) with
            | Some audio =>
                calculate_total_duration w files (float_add acc (mp3_length audio))
            | None => Raise MutagenError
            end).
    assert (Hr : readable w f ↔ is_Some (mutagen_MP3 w (path_join (folder_path w) f)))
      by done.
    cbn [foldl]. unfold length_of at 2.
    destruct (mutagen_MP3 w (path_join (folder_path w) f)) as [audio|].
    + specialize (IH (float_add acc (mp3_length audio))).
      destruct (calculate_total_duration w files _) as [total|e].
      * destruct IH as [Hall Hsum]. split; [| done].
        constructor; [by apply Hr | done].
      * destruct IH as [-> Hex]. split; [done | by right].
    + split; [done |]. left. rewrite Hr. by intros [? ?].
Qed.

(** X6: for files whose lengths are floats between 0 and 2^63 seconds,
    [calculate_total_duration] returns a total exactly when mutagen can read
    every file, and the total is then the lengths added up in floats from
    the left, starting from 0, with one rounding for each file; a single
    file that cannot be read makes the whole call raise, wherever the file
    stands in the list, and no partial total is returned. *)
Theorem calculate_total_duration_sum (w : World) (mp3_files : list pystr)
    (Hlengths : Forall (λ f, plain_length (length_of w f)) mp3_files) :
  match calculate_total_duration w mp3_files 0 with
  | Ok total =>
      Forall (readable w) mp3_files
      ∧ total = total_length w mp3_files
  | Raise _ => Exists (λ f, ¬ readable w f) mp3_files
  end.
Proof.
  pose proof (calculate_total_duration_acc w mp3_files 0) as H.
  destruct (calculate_total_duration w mp3_files 0); [done | by destruct H].
Qed.

Lemma calculate_total_duration_sum_witness :
  calculate_total_duration taggable_world (lit <$> three_parts) 0 = Ok 1800%Q
  ∧ Forall (readable taggable_world) (lit <$> three_parts)
  ∧ 1800%Q = total_length taggable_world (lit <$> three_parts).
Proof.
  split; [reflexivity |].
  pose proof (calculate_total_duration_sum taggable_world (lit <$> three_parts)) as H.
  apply H. repeat constructor; by vm_compute.
Defined.

(** Two files of a tenth and two tenths of a second, as floats: the total
    is the float [0.30000000000000004], not the float nearest to three
    tenths. *)
Example calculate_total_duration_rounds :
  let tenth := float_of_Q (1 # 10) in
  let w := with_lengths (λ path, if bool_decide (path = lit "/books/mother/part1.mp3")
                                 then tenth else float_add tenth tenth)
             (demo_world two_parts true true (ChaptersData well_formed) always_exit_0) in
  calculate_total_duration w (get_mp3_files w) 0
  = Ok (1351079888211149 # 4503599627370496)
  ∧ float_of_Q (3 # 10) = 5404319552844595 # 18014398509481984.
Proof. split; vm_compute; reflexivity. Qed.

(** ** [get_metadata_from_file] and the search it seeds *)



Example get_metadata_from_file_album :
  get_metadata_from_file tagged_world (lit "/books/mother/a.mp3")
  = Some {[ "title" := PStr (lit "Mother"); "author" := PStr (lit "m.s. RedCherries");
            "region" := PStr (lit "US") ]}.
Proof. reflexivity. Qed.

(** The query sent to the search endpoint repeats the title and the author
    as [localTitle] and [localAuthor] and carries nothing else but the
    region; the total duration that [process_folder] stores in the metadata
    as [lengthMinutes] is never sent. *)
Lemma search_query_ignores_duration (metadata : dict) (minutes : pyval) :
  search_query (<["lengthMinutes" := minutes]> metadata) = search_query metadata
  ∧ search_query metadata !! "localTitle" = search_query metadata !! "title"
  ∧ search_query metadata !! "localAuthor" = search_query metadata !! "author"
  ∧ dom (search_query metadata)
    = ({[ "title"; "author"; "region"; "localTitle"; "localAuthor" ]} : gset string).
Proof.
  unfold search_query. rewrite !lookup_insert_ne by done.
  split; [done |]. split; [by simplify_map_eq |]. split; [by simplify_map_eq |].
  rewrite !dom_insert_L, dom_singleton_L. set_solver.
Qed.

(** ** [fetch_chapters]: one bad length loses every chapter *)

Lemma process_chapters_bad raw :
  Exists (λ chapter, length_ms chapter = None) raw →
  ∃ e, process_chapters raw = Raise e.
Proof.
  induction 1 as [chapter raw Hbad | chapter raw _ [e IH]]; simpl.
  - unfold process_chapter. unfold length_ms in Hbad.
    destruct (default (PInt 0) (chapter !! "lengthMs")); try done; by eexists.
  - rewrite IH. destruct (process_chapter chapter) as [entry|e']; by eexists.
Qed.

(** X8: When a single chapter of the answer has a [lengthMs] that is not a
    number, [fetch_chapters] returns [None]: the well-formed chapters are
    dropped with it, and the session has no chapters to cut. *)
Theorem fetch_chapters_all_or_nothing (w : World) (asin : pystr) (raw : list dict)
    (st : State)
    (Hresp : requests_chapters w asin = ChaptersData raw)
    (Hbad : Exists (λ chapter, length_ms chapter = None) raw) :
  fetch_chapters w asin st = (Ok None, logged st [chapters_request asin])
  ∧ ∀ requests book chapters, session_plan w ≠ Cut requests book chapters
      ∨ book_asin book ≠ Some asin.
Proof.
  split.
  { rewrite fetch_chapters_run. unfold fetched_chapters.
    destruct (process_chapters_bad raw Hbad) as [e Hraise]. by rewrite Hresp, Hraise. }
  intros requests book chapters.
  destruct (decide (book_asin book = Some asin)) as [Hasin |]; [left | by right].
  intros Hplan. pose proof (session_plan_requests w) as Hreq.
  rewrite Hplan in Hreq.
  destruct Hreq as (_ & _ & _ & asin' & raw' & Hasin' & Hraw' & Hproc).
  rewrite Hasin in Hasin'. simplify_eq. rewrite Hresp in Hraw'. simplify_eq.
  destruct (process_chapters_bad _ Hbad) as [e Hraise]. by rewrite Hraise in Hproc.
Qed.

Lemma fetch_chapters_all_or_nothing_witness :
  let st := demo_state three_parts in
  let asin := lit "B0D12345AB" in
  fetch_chapters bad_length_world asin st = (Ok None, logged st [chapters_request asin])
  ∧ ∀ requests book chapters, session_plan bad_length_world ≠ Cut requests book chapters
      ∨ book_asin book ≠ Some asin.
Proof.
  apply (fetch_chapters_all_or_nothing bad_length_world (lit "B0D12345AB")
           [raw_chapter "Intro" 0 (Some 300000); bad_length_chapter]
           (demo_state three_parts)).
  - reflexivity.
  - right. left. reflexivity.
Defined.

(** ** The seconds lost to truncation *)

(** X9: The duration of an entry is the length in whole seconds, rounded
    towards zero: for a non-negative [lengthMs] (below 2^53, where the
    division is exact) the extraction is shorter
    than the chapter by less than one second and never longer, and a
    chapter of less than a second gets the duration 0. *)
Theorem duration_truncates (chapter : dict) (ms : Z)
    (Hms : length_ms chapter = Some ms) (Hpos : (0 ≤ ms < 2 ^ 53)%Z) :
  ∃ entry d,
    process_chapter chapter = Ok entry
    ∧ entry !! "duration" = Some (PInt d)
    ∧ (1000 * d ≤ ms < 1000 * d + 1000)%Z
    ∧ (ms < 1000 ↔ d = 0)%Z.
Proof.
  exists (processed_entry chapter ms), (Z.quot ms 1000).
  split; [apply process_chapter_value; [done | lia] |].
  split; [apply processed_entry_lookup |].
  rewrite Z.quot_div_nonneg by lia.
  pose proof (Z.div_mod ms 1000 ltac:(lia)).
  pose proof (Z.mod_pos_bound ms 1000 ltac:(lia)).
  split; [lia |]. split; intros; [| lia].
  apply Z.div_small. lia.
Qed.

Lemma duration_truncates_witness :
  ∃ entry d,
    process_chapter (raw_chapter "Intro" 0 (Some 300999)) = Ok entry
    ∧ entry !! "duration" = Some (PInt d)
    ∧ (1000 * d ≤ 300999 < 1000 * d + 1000)%Z
    ∧ (300999 < 1000 ↔ d = 0)%Z.
Proof.
  apply (duration_truncates (raw_chapter "Intro" 0 (Some 300999)) 300999);
    [reflexivity | lia].
Defined.

(** ** The events of the sweep, entry by entry *)

Section SweepEvents.

Variable w : World.

Lemma tag_file_run file_path chapter track_num total_tracks book st :
  tag_file w file_path chapter track_num total_tracks book st
  = (Ok (), logged st (tag_events w file_path chapter track_num total_tracks book)).
Proof.
  unfold tag_file, tag_events. run_step.
  destruct (mutagen_MP3 w file_path) as [audio|]; run_step; [| by rewrite logged_nil].
  destruct (tag_frames chapter track_num total_tracks book) as [frames|]; run_step;
    [| by rewrite logged_nil].
  destruct (mutagen_save w file_path); run_step; [done | by rewrite logged_nil].
Qed.

Lemma split_chapter_run input_path total book i chapter st :
  let evs := entry_events w input_path total book (i, chapter) in
  split_chapter w input_path total book i chapter st
  = (Ok (cut_succeeds w input_path (i, chapter)),
     {| fs := fs st ∪ list_to_set (written_outputs evs); log := log st ++ evs |}).
Proof.
  unfold entry_events, split_chapter, cut_succeeds. simpl.
  unfold planned_cmd.
  destruct (default _ (chapter !! "title")) as [| | |title]; run_step;
    try (rewrite app_nil_r, union_empty_r_L; by destruct st).
  unfold subprocess_run. set (cmd := split_cmd _ _ _ _).
  assert (Hout : cmd_output cmd
                 = path_join (folder_path w) (chapter_filename i (sanitize_filename title)))
    by done.
  destruct (ffmpeg w cmd) as [|returncode written] eqn:Hff; simpl.
  { by rewrite union_empty_r_L. }
  destruct (decide (returncode = 0)) as [-> | Hrc].
  - simpl. rewrite tag_file_run. unfold logged. simpl. rewrite <- Hout.
    assert (Hnone : written_outputs (tag_events w (cmd_output cmd) chapter i total book) = []).
    { unfold tag_events. destruct (mutagen_MP3 w _); [| done].
      destruct (tag_frames _ _ _ _); [| done]. by destruct (mutagen_save w _). }
    f_equal. f_equal; [| by rewrite <- app_assoc].
    unfold written_outputs in *. destruct written; simpl; rewrite Hnone; simpl;
      by rewrite ?Hout, !union_empty_r_L.
  - rewrite bool_decide_true, bool_decide_false by done. simpl.
    f_equal. f_equal. destruct written; simpl; by rewrite ?Hout, !union_empty_r_L.
Qed.

Lemma written_outputs_app evs1 evs2 :
  written_outputs (evs1 ++ evs2) = written_outputs evs1 ++ written_outputs evs2.
Proof. apply omap_app. Qed.

Lemma sweep_run input_path total book chapters : ∀ i n st,
  let evs := flat_map (entry_events w input_path total book) (enumerate i chapters) in
  ∃ n',
    sweep w input_path total book i chapters n st
    = (Ok n', {| fs := fs st ∪ list_to_set (written_outputs evs); log := log st ++ evs |}).
Proof.
  induction chapters as [|chapter rest IH]; intros i n st; simpl.
  - exists n. run_step. rewrite app_nil_r, union_empty_r_L. by destruct st.
  - run_step. rewrite split_chapter_run.
    edestruct IH as [n' ->]. exists n'. simpl. f_equal. f_equal.
    + rewrite written_outputs_app, list_to_set_app_L. by rewrite (assoc_L (∪)).
    + by rewrite <- app_assoc.
Qed.

(** What [split_by_chapters] logs is the passes of its entries, one after
    the other, and the files it adds are those ffmpeg reports written. *)
Lemma split_by_chapters_run input_file chapters book st :
  let input_path := path_join (folder_path w) input_file in
  let evs := flat_map (entry_events w input_path (length chapters) book)
               (enumerate 1 chapters) in
  new_events st (split_by_chapters w input_file chapters book st).2 = evs
  ∧ fs (split_by_chapters w input_file chapters book st).2
    = fs st ∪ list_to_set (written_outputs evs).
Proof.
  intros input_path evs. unfold split_by_chapters. run_step. fold input_path.
  destruct (sweep_run input_path (length chapters) book chapters 1 0 st) as [n' ->].
  simpl. split; [| done]. by apply new_events_app.
Qed.

End SweepEvents.

(** X10: The sweep deletes nothing: the files after it are those before it and
    the outputs ffmpeg reports written, and an [os.remove] is never
    issued. *)
Theorem sweep_only_adds_outputs (w : World) (input_file : pystr) (chapters : list dict)
    (book : Book) (st : State) :
  let run := split_by_chapters w input_file chapters book st in
  fs run.2 = fs st ∪ list_to_set (written_outputs (new_events st run.2))
  ∧ Forall (λ e, ¬ is_removal e) (new_events st run.2)
  ∧ Forall (λ path, ∃ cmd, cmd ∈ runs (new_events st run.2) ∧ path = cmd_output cmd)
      (written_outputs (new_events st run.2)).
Proof.
  intros run. subst run.
  destruct (split_by_chapters_run w input_file chapters book st) as [Hev Hfs].
  split; [by rewrite Hev |].
  split.
  - destruct (new_events_split_by_chapters w input_file chapters book st)
      as (_ & _ & Hcut & _).
    eapply Forall_impl; [exact Hcut |]. intros e He Hrm. by destruct e.
  - apply Forall_forall. intros path (e & He & Hout)%list_elem_of_omap.
    destruct e as [| |cmd [|rc [|]]| | |]; simplify_eq.
    exists cmd. split; [| done].
    apply list_elem_of_omap. by exists (EvRun cmd (ProcExited rc true)).
Qed.

Lemma saves_follow_cuts_app evs1 evs2 :
  saves_follow_cuts evs1 → saves_follow_cuts evs2 → saves_follow_cuts (evs1 ++ evs2).
Proof.
  intros H1 H2 pre path frames post Heq.
  apply app_eq_inv in Heq as [(k & -> & Hk) | (k & -> & Hk)].
  - destruct k as [|e k]; simpl in Hk.
    + destruct (H2 [] path frames post (eq_sym Hk)) as (pre' & cmd & written & Hpre & _).
      by destruct pre'.
    + simplify_eq. apply (H1 pre path frames k eq_refl).
  - destruct (H2 k path frames post Hk) as (pre' & cmd & written & -> & Hout).
    exists (evs1 ++ pre'), cmd, written. by rewrite <- app_assoc.
Qed.

Lemma saves_follow_cuts_entry w input_path total book ic :
  saves_follow_cuts (entry_events w input_path total book ic).
Proof.
  unfold entry_events, cut_succeeds, tag_events.
  destruct (planned_cmd w input_path ic.1 ic.2) as [cmd|];
    [| intros [|? ?] ? ? ? ?; done].
  intros pre path frames post Heq.
  destruct pre as [|e pre]; [done |]. simpl in Heq. injection Heq as <- Heq.
  destruct (ffmpeg w cmd) as [|rc written]; [by destruct pre |].
  case_bool_decide; [subst rc | by destruct pre].
  destruct (mutagen_MP3 w (cmd_output cmd)); [| by destruct pre].
  destruct (tag_frames _ _ _ _); [| by destruct pre].
  destruct (mutagen_save w (cmd_output cmd)); [| by destruct pre].
  destruct pre as [|e' pre]; [| by destruct pre].
  simpl in Heq. simplify_eq. by exists [], cmd, written.
Qed.

(** X11: A file is tagged only once it has been cut: in the log of the sweep
    every save stands right behind the ffmpeg command that wrote that very
    file and exited with status 0. *)
Theorem tags_only_after_successful_cut (w : World) (input_file : pystr)
    (chapters : list dict) (book : Book) (st : State)
    (pre post : list event) (path : pystr) (frames : list (string * pyval))
    (Hsave : new_events st (split_by_chapters w input_file chapters book st).2
             = pre ++ EvSave path frames :: post) :
  ∃ pre' cmd written,
    pre = pre' ++ [EvRun cmd (ProcExited 0 written)] ∧ cmd_output cmd = path.
Proof.
  destruct (split_by_chapters_run w input_file chapters book st) as [Hev _].
  rewrite Hev in Hsave. revert pre path frames post Hsave.
  change (saves_follow_cuts
            (flat_map (entry_events w (path_join (folder_path w) input_file)
                         (length chapters) book) (enumerate 1 chapters))).
  clear Hev. generalize (length chapters) as total. intros total.
  generalize 1%nat. induction chapters as [|chapter rest IH].
  - intros i [|? ?] ? ? ? ?; done.
  - intros i. simpl. apply saves_follow_cuts_app; [apply saves_follow_cuts_entry | apply IH].
Qed.

Lemma tags_only_after_successful_cut_witness :
  let st := demo_state three_parts in
  let evs := new_events st
               (split_by_chapters taggable_world combined_file three_entries demo_book st).2 in
  ∃ pre' cmd written,
    take 1 evs = pre' ++ [EvRun cmd (ProcExited 0 written)]
    ∧ cmd_output cmd = lit "/books/mother/01_Intro.mp3".
Proof.
  intros st evs.
  apply (tags_only_after_successful_cut taggable_world combined_file three_entries
           demo_book st (take 1 evs) (drop 2 evs) (lit "/books/mother/01_Intro.mp3")
           [("TIT2", PStr (lit "Intro")); ("TRCK", PStr (lit "1/3"));
            ("TPE1", PStr (lit "m.s. RedCherries")); ("TALB", PStr (lit "Mother"));
            ("TDRC", PStr (lit "2024")); ("TCON", PStr (lit "Poetry"))]).
  vm_compute. reflexivity.
Defined.

(** ** What [tag_file] writes *)

Lemma enumerate_elem_lookup {A} i (l : list A) j x :
  (j, x) ∈ enumerate i l → ∃ k, j = (i + k)%nat ∧ l !! k = Some x.
Proof.
  revert i. induction l as [|y l IH]; intros i; simpl; [by intros ?%elem_of_nil |].
  intros [Heq | Hin]%elem_of_cons.
  - simplify_eq. exists 0%nat. split; [lia | done].
  - apply IH in Hin as (k & -> & Hk). exists (S k). split; [lia | done].
Qed.

Lemma tag_frames_Ok chapter track_num total_tracks book frames :
  tag_frames chapter track_num total_tracks book = Ok frames →
  ∃ title rest,
    chapter !! "title" = Some title
    ∧ book_authors book ≠ Some []
    ∧ frames = ("TIT2", title)
               :: ("TRCK", PStr (decimal (Z.of_nat track_num) ++ lit "/"
                                 ++ decimal (Z.of_nat total_tracks)))
               :: rest.
Proof.
  unfold tag_frames.
  destruct (chapter !! "title") as [title|]; [| done].
  destruct (book_authors book) as [[|first_author others]|]; simpl; [done | ..];
    intros [= <-]; by eexists _, _.
Qed.

(** [tag_frames] fails in exactly two cases: the entry has no [title]
    member, or the catalogue gave an empty list of authors; a missing
    [authors] member, a first author without a name, a missing date or genre
    do not make it fail. When it succeeds, the first two frames are the
    title and the track [i/N], and a year frame holds at most four
    characters. *)
Lemma tag_frames_outcome (chapter : dict) (track_num total_tracks : nat) (book : Book) :
  match tag_frames chapter track_num total_tracks book with
  | Ok frames =>
      ∃ title rest,
        chapter !! "title" = Some title
        ∧ book_authors book ≠ Some []
        ∧ frames = ("TIT2", title)
                   :: ("TRCK", PStr (decimal (Z.of_nat track_num) ++ lit "/"
                                     ++ decimal (Z.of_nat total_tracks)))
                   :: rest
        ∧ Forall (λ frame, ∀ year, frame = ("TDRC", PStr year) → (length year ≤ 4)%nat) frames
  | Raise e =>
      (e = KeyError ∧ chapter !! "title" = None)
      ∨ (e = IndexError ∧ book_authors book = Some [])
  end.
Proof.
  unfold tag_frames.
  destruct (chapter !! "title") as [title|]; [| by left].
  destruct (book_authors book) as [[|first_author others]|] eqn:Hauthors; simpl;
    [by right | ..].
  all: eexists _, _; split; [done |]; split; [done |]; split; [done |].
  all: repeat (apply Forall_cons; split; [intros year [= <-] |]);
    try (intros; discriminate).
  all: apply Forall_app; split.
  all: try (destruct (book_releaseDate book) as [date|];
            [apply Forall_singleton; intros year [= <-];
             rewrite length_take; lia | constructor]).
  all: destruct (book_genres book) as [genres|]; [| constructor].
  all: destruct (omap id genres); [constructor |].
  all: apply Forall_singleton; intros year [=].
Qed.

Lemma elem_of_flat_map {A B} (f : A → list B) (l : list A) (y : B) :
  y ∈ flat_map f l ↔ ∃ x, x ∈ l ∧ y ∈ f x.
Proof.
  rewrite list_elem_of_In, in_flat_map. split; intros (x & Hx & Hy); exists x.
  - by rewrite !list_elem_of_In.
  - by rewrite <- !list_elem_of_In.
Qed.

Lemma save_in_entry_events w input_path total book i chapter path frames :
  EvSave path frames ∈ entry_events w input_path total book (i, chapter) →
  ∃ cmd,
    planned_cmd w input_path i chapter = Some cmd
    ∧ path = cmd_output cmd
    ∧ cut_succeeds w input_path (i, chapter) = true
    ∧ tag_frames chapter i total book = Ok frames.
Proof.
  unfold entry_events, tag_events. simpl.
  destruct (planned_cmd w input_path i chapter) as [cmd|]; [| by intros ?%elem_of_nil].
  intros [Heq | Hin]%elem_of_cons; [done |]. exists cmd. split; [done |].
  destruct (cut_succeeds w input_path (i, chapter)); [| by apply elem_of_nil in Hin].
  destruct (mutagen_MP3 w (cmd_output cmd)); [| by apply elem_of_nil in Hin].
  destruct (tag_frames chapter i total book) as [frames'|]; [| by apply elem_of_nil in Hin].
  destruct (mutagen_save w (cmd_output cmd)); [| by apply elem_of_nil in Hin].
  apply list_elem_of_singleton in Hin. by simplify_eq.
Qed.

(** X12: Every set of tags the sweep saves belongs to an entry whose extraction
    succeeded, goes to the file of that entry, and numbers the track by the
    position of the entry over the number of all entries of the list,
    failed ones included. *)
Theorem saved_tags_carry_position (w : World) (input_file : pystr) (chapters : list dict)
    (book : Book) (st : State) (path : pystr) (frames : list (string * pyval))
    (Hsave : EvSave path frames
             ∈ new_events st (split_by_chapters w input_file chapters book st).2) :
  let input_path := path_join (folder_path w) input_file in
  ∃ k chapter title cmd,
    chapters !! k = Some chapter
    ∧ chapter !! "title" = Some title
    ∧ planned_cmd w input_path (S k) chapter = Some cmd
    ∧ path = cmd_output cmd
    ∧ cut_succeeds w input_path (S k, chapter) = true
    ∧ take 2 frames
      = [("TIT2", title);
         ("TRCK", PStr (decimal (Z.of_nat (S k)) ++ lit "/"
                        ++ decimal (Z.of_nat (length chapters))))].
Proof.
  intros input_path.
  destruct (split_by_chapters_run w input_file chapters book st) as [Hev _].
  rewrite Hev in Hsave. fold input_path in Hsave.
  apply elem_of_flat_map in Hsave as ([i chapter] & Hin & Hsave).
  apply enumerate_elem_lookup in Hin as (k & -> & Hk).
  apply save_in_entry_events in Hsave as (cmd & Hplan & -> & Hcut & Hframes).
  apply tag_frames_Ok in Hframes as (title & rest & Htitle & _ & ->).
  by exists k, chapter, title, cmd.
Qed.

Lemma saved_tags_carry_position_witness :
  let st := demo_state three_parts in
  let input_path := path_join (folder_path taggable_world) combined_file in
  ∃ k chapter title cmd,
    three_entries !! k = Some chapter
    ∧ chapter !! "title" = Some title
    ∧ planned_cmd taggable_world input_path (S k) chapter = Some cmd
    ∧ lit "/books/mother/02_Middle.mp3" = cmd_output cmd
    ∧ cut_succeeds taggable_world input_path (S k, chapter) = true
    ∧ take 2 [("TIT2", PStr (lit "Middle")); ("TRCK", PStr (lit "2/3"));
              ("TPE1", PStr (lit "m.s. RedCherries")); ("TALB", PStr (lit "Mother"));
              ("TDRC", PStr (lit "2024")); ("TCON", PStr (lit "Poetry"))]
      = [("TIT2", title);
         ("TRCK", PStr (decimal (Z.of_nat (S k)) ++ lit "/"
                        ++ decimal (Z.of_nat (length three_entries))))].
Proof.
  intros st input_path.
  apply (saved_tags_carry_position taggable_world combined_file three_entries demo_book st
           (lit "/books/mother/02_Middle.mp3")).
  apply (bool_decide_unpack _). vm_compute. exact I.
Defined.

(** X13: When the catalogue gives the book an empty list of authors, no file
    is ever tagged: taking the first author raises, [tag_file] swallows it,
    and the sweep reports what the extractions alone decide. *)
Theorem empty_author_list_blocks_tagging (w : World) (input_file : pystr)
    (chapters : list dict) (book : Book) (st : State)
    (Hauthors : book_authors book = Some []) :
  let run := split_by_chapters w input_file chapters book st in
  Forall (λ e, ¬ is_save e) (new_events st run.2)
  ∧ run.1 = Ok (forallb (cut_succeeds w (path_join (folder_path w) input_file))
                  (enumerate 1 chapters)).
Proof.
  intros run. subst run. split.
  - apply Forall_forall. intros e He Hsave.
    destruct e as [| | |path frames| |]; try done.
    revert He.
    destruct (split_by_chapters_run w input_file chapters book st) as [Hev _].
    rewrite Hev. intros ([i c] & _ & Hin)%elem_of_flat_map.
    apply save_in_entry_events in Hin as (cmd' & _ & _ & _ & Hframes).
    by apply tag_frames_Ok in Hframes as (? & ? & _ & Hne & _).
  - by destruct (new_events_split_by_chapters w input_file chapters book st) as (-> & _).
Qed.

Lemma empty_author_list_blocks_tagging_witness :
  let st := demo_state three_parts in
  let run := split_by_chapters taggable_world combined_file three_entries anonymous_book st in
  Forall (λ e, ¬ is_save e) (new_events st run.2)
  ∧ run.1 = Ok (forallb (cut_succeeds taggable_world
                           (path_join (folder_path taggable_world) combined_file))
                  (enumerate 1 three_entries)).
Proof.
  apply (empty_author_list_blocks_tagging taggable_world combined_file three_entries
           anonymous_book (demo_state three_parts)).
  reflexivity.
Defined.

(** X14: An entry without a [title] member is cut all the same, under the name
    [Chapter i], but it is never tagged: the sweep reads the title with a
    default, [tag_file] reads it without one. *)
Theorem untitled_entry_cut_untagged (w : World) (input_path : pystr) (total : nat)
    (book : Book) (i : nat) (chapter : dict) (st : State)
    (Huntitled : chapter !! "title" = None) :
  let cmd := split_cmd input_path
               (py_str (default (PInt 0) (chapter !! "start")))
               (py_str (default (PInt 0) (chapter !! "duration")))
               (path_join (folder_path w)
                  (chapter_filename i
                     (sanitize_filename (lit "Chapter " ++ decimal (Z.of_nat i))))) in
  let run := split_chapter w input_path total book i chapter st in
  new_events st run.2 = [EvRun cmd (ffmpeg w cmd)]
  ∧ run.1 = Ok (match ffmpeg w cmd with
                | ProcExited returncode _ => bool_decide (returncode = 0)
                | ProcRaised => false
                end).
Proof.
  intros cmd run. subst run. rewrite split_chapter_run.
  assert (Hplan : planned_cmd w input_path i chapter = Some cmd).
  { unfold planned_cmd. by rewrite Huntitled. }
  assert (Htag : ∀ path, tag_events w path chapter i total book = []).
  { intros path. unfold tag_events, tag_frames. rewrite Huntitled.
    by destruct (mutagen_MP3 w path). }
  unfold entry_events, cut_succeeds. cbn [fst snd]. rewrite Hplan, Htag.
  split; [| done].
  erewrite new_events_app by reflexivity.
  by destruct (ffmpeg w cmd) as [|rc written]; [| case_bool_decide].
Qed.

Lemma untitled_entry_cut_untagged_witness :
  let st := demo_state three_parts in
  let cmd := split_cmd (lit "/books/mother/part1.mp3") (lit "0") (lit "60")
               (lit "/books/mother/04_Chapter 4.mp3") in
  let run := split_chapter taggable_world (lit "/books/mother/part1.mp3") 5 demo_book 4
               untitled_entry st in
  new_events st run.2 = [EvRun cmd (ProcExited 0 true)] ∧ run.1 = Ok true.
Proof.
  intros st cmd run.
  exact (untitled_entry_cut_untagged taggable_world (lit "/books/mother/part1.mp3") 5
           demo_book 4 untitled_entry st eq_refl).
Defined.

(** ** The concatenation *)

Lemma not_failed_app evs1 evs2 :
  Exists removal_failed (evs1 ++ evs2)
  ↔ Exists removal_failed evs1 ∨ Exists removal_failed evs2.
Proof. apply Exists_app. Qed.

Section Cleanup.

Variable w : World.

Lemma combine_mp3_files_run mp3_files st (Hmany : length mp3_files ≠ 1%nat) :
  let output_file := path_join (folder_path w) combined_file in
  let run := combine_mp3_files w mp3_files st in
  (∀ name, run.1 = Ok name ↔
     name = combined_file
     ∧ open_ok w file_list = true
     ∧ (∃ written, ffmpeg w (concat_cmd output_file) = ProcExited 0 written)
     ∧ remove_ok w file_list = true)
  ∧ (remove_ok w file_list = true → file_list ∉ fs run.2)
  ∧ (is_Some (match run.1 with Ok name => Some name | Raise _ => None end) →
     Forall (λ e, ¬ removal_failed e) (new_events st run.2)).
Proof.
  intros output_file run. subst run.
  assert (Hne : output_file ≠ file_list).
  { unfold output_file. intros Heq. apply (f_equal last) in Heq.
    rewrite (path_join_last _ _ 51%N) in Heq; [| done]. by vm_compute in Heq. }
  unfold combine_mp3_files.
  destruct mp3_files as [|first [|second rest]]; [| done |].
  all: set (content := manifest w _); clearbody content.
  all: unfold open_write, subprocess_run, os_remove; run_step; fold output_file.
  all: destruct (open_ok w file_list); simpl.
  all: try (destruct (ffmpeg w (concat_cmd output_file)) as [|returncode written]; simpl;
            [| destruct (decide (returncode = 0)) as [-> |];
               [rewrite bool_decide_false by (by intros ?)
               | rewrite bool_decide_true by done]; simpl;
               destruct written; simpl];
            repeat (rewrite bool_decide_true by set_solver)).
  all: try (destruct (decide (file_list ∈ fs st));
            [repeat (rewrite bool_decide_true by done)
            | repeat (rewrite bool_decide_false by done)]; simpl).
  all: destruct (remove_ok w file_list); simpl.
  all: (split;
        [intros name; split;
           [intros ?; simplify_eq; eauto 10
           | intros (? & ? & [? ?] & ?); by simplify_eq]
        | split;
           [intros ?; first [done | rewrite elem_of_difference, elem_of_singleton; tauto]
           | intros [? ?]; simplify_eq;
             erewrite new_events_app by (simpl; rewrite <- ?app_assoc; reflexivity);
             repeat constructor; simpl; tauto]]).
Qed.

Lemma remove_originals_run originals : ∀ ok st,
  ∃ ok' cleanup,
    remove_originals w originals ok st
    = (Ok ok', {| fs := fs st ∖ list_to_set (removable w originals);
                  log := log st ++ cleanup |})
    ∧ Forall (removes originals) cleanup
    ∧ (ok' = true ↔ ok = true ∧ ¬ Exists removal_failed cleanup).
Proof.
  unfold removable.
  induction originals as [|path rest IH]; intros ok st.
  - exists ok, []. simpl. run_step.
    rewrite app_nil_r, difference_empty_L. split; [by destruct st |].
    split; [constructor |]. rewrite Exists_nil. tauto.
  - assert (Hmore : ∀ cleanup, Forall (removes rest) cleanup →
                               Forall (removes (path :: rest)) cleanup).
    { intros cleanup Hrest. eapply Forall_impl; [exact Hrest |].
      intros [] ?; simpl in *; try done. by right. }
    simpl. unfold os_remove. run_step.
    destruct (decide (path ∈ fs st));
      [repeat (rewrite bool_decide_true by done)
      | repeat (rewrite bool_decide_false by done)]; simpl.
    + destruct (remove_ok w path) eqn:Hok; simpl.
      * rewrite filter_cons_True by done.
        edestruct IH as (ok' & cleanup & -> & Hrm & Hiff).
        exists ok', (EvRemove path true :: cleanup). simpl.
        split.
        { f_equal. f_equal; [| by rewrite <- app_assoc].
          rewrite ?list_to_set_cons. apply set_eq. intros x.
          rewrite !elem_of_difference, elem_of_union, elem_of_singleton. tauto. }
        split; [constructor; [by left | by apply Hmore] |].
        rewrite Hiff, Exists_cons. simpl. tauto.
      * rewrite filter_cons_False by (by rewrite Hok).
        edestruct IH as (ok' & cleanup & -> & Hrm & Hiff).
        exists ok', (EvRemove path false :: cleanup). simpl.
        split; [f_equal; f_equal; by rewrite <- app_assoc |].
        split; [constructor; [by left | by apply Hmore] |].
        rewrite Hiff, Exists_cons. simpl. split; [by intros [? _] | tauto].
    + edestruct IH as (ok' & cleanup & -> & Hrm & Hiff).
      exists ok', cleanup. split; [| split; [by apply Hmore | done]]. f_equal. f_equal.
      destruct (remove_ok w path) eqn:Hok;
        [rewrite filter_cons_True by done | by rewrite filter_cons_False by (by rewrite Hok)].
      rewrite ?list_to_set_cons. apply set_eq. intros x.
      rewrite !elem_of_difference, elem_of_union, elem_of_singleton.
      split; [| tauto]. intros [Hx Hrest]. split; [done |]. intros [-> | ?]; tauto.
Qed.

Lemma not_failed_cut_events evs : Forall is_cut_event evs → ¬ Exists removal_failed evs.
Proof.
  intros Hcut Hex. apply Exists_exists in Hex as (e & He & Hfail).
  rewrite Forall_forall in Hcut. specialize (Hcut e He). by destruct e.
Qed.

Lemma fitting_report_true ok evs :
  (ok = true ↔ ¬ Exists removal_failed evs) →
  (if ok then AllOperationsCompleted else CleanupFailed) = fitting_report true evs.
Proof.
  unfold fitting_report. intros Hok. case_bool_decide as Hex; destruct ok; try done.
  - by destruct Hok as [Hok _]; destruct Hok.
  - by destruct Hok as [_ Hok]; specialize (Hok Hex).
Qed.

Lemma session_events_app (evs1 evs2 : list event) (P Q : event → Prop) :
  Forall P evs1 → (∀ e, P e → Q e) → Forall Q evs2 → Forall Q (evs1 ++ evs2).
Proof. intros H1 HPQ H2. apply Forall_app. split; [by eapply Forall_impl | done]. Qed.

(** The cut, outcome by outcome: it raises only out of the concatenation;
    otherwise it ends with the closing message that fits, and after a
    successful sweep no removable input file is left. *)
Lemma cut_and_cleanup_outcome mp3_files originals chapters book st :
  let cleanup_file := path_join (folder_path w) combined_file in
  let run := cut_and_cleanup w mp3_files originals chapters book st in
  match run.1 with
  | Ok b =>
      ∃ evs,
        new_events st run.2 = evs ++ [EvReport (fitting_report b evs)]
        ∧ Forall (session_event w mp3_files originals) evs
        ∧ (b = true →
           (∀ path, path ∈ originals → remove_ok w path = true → path ∉ fs run.2)
           ∧ ((1 < length mp3_files)%nat → remove_ok w cleanup_file = true →
              cleanup_file ∉ fs run.2))
  | Raise _ =>
      (1 < length mp3_files)%nat
      ∧ Forall (session_event w mp3_files originals) (new_events st run.2)
  end.
Proof.
  intros cleanup_file run. subst run. unfold cut_and_cleanup. fold cleanup_file.
  assert (Hcombine : ∀ setup, (1 < length mp3_files)%nat →
    Forall is_combine_event setup → Forall (session_event w mp3_files originals) setup).
  { intros setup Hlen Hsetup. eapply Forall_impl; [exact Hsetup |].
    intros [] ?; simpl in *; try done. right. split; [done | by left]. }
  assert (HC :
    match (if bool_decide (1 < length mp3_files)%nat then combine_mp3_files w mp3_files
           else mret (default [] (head mp3_files))) st with
    | (Ok name, st1) =>
        ∃ setup, log st1 = log st ++ setup
                 ∧ Forall (session_event w mp3_files originals) setup
                 ∧ ¬ Exists removal_failed setup
    | (Raise _, st1) =>
        (1 < length mp3_files)%nat
        ∧ Forall (session_event w mp3_files originals) (new_events st st1)
    end).
  { case_bool_decide as Hlen.
    - destruct (combine_mp3_files_spec w mp3_files st) as (setup & Hlog & Hsetup & _).
      destruct (combine_mp3_files_run mp3_files st ltac:(lia)) as (_ & _ & Hnf).
      rewrite (new_events_app _ _ _ Hlog) in Hnf.
      destruct (combine_mp3_files w mp3_files st) as [[name|e] st1]; simpl in *.
      + exists setup. split; [done |]. split; [by apply Hcombine |].
        intros Hex. apply Exists_exists in Hex as (e & He & Hfail).
        specialize (Hnf ltac:(eauto)). rewrite Forall_forall in Hnf. by apply (Hnf e).
      + split; [done |]. rewrite (new_events_app _ _ _ Hlog). by apply Hcombine.
    - run_step. exists []. rewrite app_nil_r.
      split; [done |]. split; [constructor |]. by intros ?%Exists_nil. }
  revert HC.
  generalize (if bool_decide (1 < length mp3_files)%nat then combine_mp3_files w mp3_files
              else mret (default [] (head mp3_files))).
  intros C HC. run_step.
  destruct (C st) as [[input_file|e] st1]; simpl; [| done].
  destruct HC as (setup & Hlog1 & Hsetup & Hnf1).
  destruct (split_by_chapters_spec w input_file chapters book st1)
    as (st2 & sweep_evs & Hsplit & Hlog2 & Hcut & _ & _).
  simpl in Hsplit. rewrite Hsplit.
  set (b0 := forallb _ _) in *. clearbody b0.
  pose proof (not_failed_cut_events _ Hcut) as Hnf2.
  assert (Hsweep : ∀ e, is_cut_event e → session_event w mp3_files originals e)
    by (by intros []).
  destruct b0; simpl.
  - destruct (remove_originals_run originals true st2)
      as (ok & cleanup & -> & Hrm & Hok).
    assert (Hok' : ok = true ↔ ¬ Exists removal_failed cleanup) by (rewrite Hok; tauto).
    clear Hok.
    set (gone := list_to_set (removable w originals) : gset pystr).
    assert (Hgone : ∀ path, path ∈ originals → remove_ok w path = true → path ∈ gone).
    { intros path Hin Hokp. by apply elem_of_list_to_set, list_elem_of_filter. }
    assert (Hshape : ∀ last_evs,
      Forall (session_event w mp3_files originals) last_evs →
      Forall (session_event w mp3_files originals)
        (setup ++ sweep_evs ++ cleanup ++ last_evs)).
    { intros last_evs Hlast.
      apply Forall_app. split; [done |].
      apply (session_events_app _ _ _ _ Hcut); [done |].
      apply (session_events_app _ _ _ _ Hrm); [| done].
      intros [] ?; simpl in *; try done. by left. }
    case_bool_decide as Hlen; simpl.
    + assert (Hlast : ∀ removed,
        Forall (session_event w mp3_files originals) [EvRemove cleanup_file removed]).
      { intros removed. apply Forall_singleton. simpl. right. split; [done | by right]. }
      unfold os_remove. simpl.
      destruct (decide (cleanup_file ∈ fs st2 ∖ gone)) as [Hin | Hnin];
        [repeat (rewrite bool_decide_true by done)
        | repeat (rewrite bool_decide_false by done)]; simpl.
      * destruct (remove_ok w cleanup_file) eqn:Hokc; simpl.
        -- exists (setup ++ sweep_evs ++ cleanup ++ [EvRemove cleanup_file true]).
           split.
           { rewrite <- (fitting_report_true ok)
               by (rewrite Hok', !Exists_app, Exists_cons, Exists_nil; simpl; tauto).
             apply new_events_app. simpl. by rewrite Hlog2, Hlog1, <- !app_assoc. }
           split; [by apply Hshape |].
           intros _. split.
           ++ intros path Hpath Hokp. apply Hgone in Hpath; [| done].
              rewrite !elem_of_difference. tauto.
           ++ intros _ _. rewrite !elem_of_difference, elem_of_singleton. tauto.
        -- exists (setup ++ sweep_evs ++ cleanup ++ [EvRemove cleanup_file false]).
           split.
           { rewrite <- (fitting_report_true false)
               by (rewrite !Exists_app, Exists_cons, Exists_nil; simpl;
                   split; [done | tauto]).
             apply new_events_app. simpl. by rewrite Hlog2, Hlog1, <- !app_assoc. }
           split; [by apply Hshape |].
           intros _. split; [| done].
           intros path Hpath Hokp. apply Hgone in Hpath; [| done].
           rewrite !elem_of_difference. tauto.
      * exists (setup ++ sweep_evs ++ cleanup ++ []).
        split.
        { rewrite <- (fitting_report_true ok)
            by (rewrite Hok', !Exists_app, Exists_nil; tauto).
          apply new_events_app. simpl. by rewrite Hlog2, Hlog1, app_nil_r, <- !app_assoc. }
        split; [apply Hshape; constructor |].
        intros _. split; [| done].
        intros path Hpath Hokp. apply Hgone in Hpath; [| done].
        rewrite !elem_of_difference. tauto.
    + exists (setup ++ sweep_evs ++ cleanup ++ []).
      split.
      { rewrite <- (fitting_report_true ok)
          by (rewrite Hok', !Exists_app, Exists_nil; tauto).
        apply new_events_app. simpl. by rewrite Hlog2, Hlog1, app_nil_r, <- !app_assoc. }
      split; [apply Hshape; constructor |].
      intros _. split; [| done].
      intros path Hpath Hokp. apply Hgone in Hpath; [| done].
      rewrite !elem_of_difference. tauto.
  - exists (setup ++ sweep_evs).
    split.
    { apply new_events_app. simpl. by rewrite Hlog2, Hlog1, <- !app_assoc. }
    split; [| done].
    apply Forall_app. split; [done |]. by eapply Forall_impl.
Qed.

End Cleanup.

(** X15: [combine_mp3_files], called with several files (or none), returns
    the name [combined_temp.mp3] exactly when the manifest could be written,
    ffmpeg exited with status 0 and the manifest could be removed again: the
    removal sits in the [finally] block, so a manifest that cannot be
    deleted turns a successful concatenation into an exception. Whenever the
    removal is permitted, no manifest is left, whatever went wrong before. *)
Theorem combine_mp3_files_outcome (w : World) (mp3_files : list pystr) (st : State)
    (Hmany : length mp3_files ≠ 1%nat) :
  let output_file := path_join (folder_path w) combined_file in
  let run := combine_mp3_files w mp3_files st in
  (∀ name, run.1 = Ok name ↔
     name = combined_file
     ∧ open_ok w file_list = true
     ∧ (∃ written, ffmpeg w (concat_cmd output_file) = ProcExited 0 written)
     ∧ remove_ok w file_list = true)
  ∧ (remove_ok w file_list = true → file_list ∉ fs run.2).
Proof.
  intros output_file run.
  by destruct (combine_mp3_files_run w mp3_files st Hmany) as (Hok & Hgone & _).
Qed.

Lemma combine_mp3_files_outcome_witness :
  let w := failing_cut_world in
  let output_file := path_join (folder_path w) combined_file in
  let run := combine_mp3_files w (lit <$> two_parts) (demo_state two_parts) in
  (∀ name, run.1 = Ok name ↔
     name = combined_file
     ∧ open_ok w file_list = true
     ∧ (∃ written, ffmpeg w (concat_cmd output_file) = ProcExited 0 written)
     ∧ remove_ok w file_list = true)
  ∧ (remove_ok w file_list = true → file_list ∉ fs run.2).
Proof.
  apply (combine_mp3_files_outcome failing_cut_world (lit <$> two_parts)
           (demo_state two_parts)).
  simpl. lia.
Defined.

(** ** The session as a whole *)




(** [process_folder], outcome by outcome. *)
Lemma process_folder_outcome w st :
  let cleanup_file := path_join (folder_path w) combined_file in
  let run := process_folder w st in
  ∃ requests evs,
    Forall is_request requests
    ∧ Forall (session_event w (get_mp3_files w) (original_files w)) evs
    ∧ ((run.1 = Ok false ∧ new_events st run.2 = requests ++ evs)
       ∨ (∃ b, run.1 = Ok b
            ∧ new_events st run.2 = requests ++ evs ++ [EvReport (fitting_report b evs)]
            ∧ (b = true →
               (∀ path, path ∈ original_files w → remove_ok w path = true →
                        path ∉ fs run.2)
               ∧ ((1 < length (get_mp3_files w))%nat → remove_ok w cleanup_file = true →
                  cleanup_file ∉ fs run.2)))).
Proof.
  intros cleanup_file run. subst run. rewrite process_folder_plan.
  pose proof (session_plan_requests w) as Hreq.
  destruct (session_plan w) as [requests | requests book chapters].
  { exists requests, []. split; [done |]. split; [constructor |]. left.
    split; [done |]. apply new_events_app. unfold logged. simpl. by rewrite app_nil_r. }
  destruct Hreq as (Hreq & _).
  pose proof (cut_and_cleanup_outcome w (get_mp3_files w) (original_files w) chapters book
                (logged st requests)) as Hcut.
  destruct (cut_and_cleanup_log w (get_mp3_files w) (original_files w) chapters book
              (logged st requests)) as (tail & Hlog).
  simpl in Hcut. rewrite (new_events_app _ _ _ Hlog) in Hcut.
  assert (Hnew : new_events st (cut_and_cleanup w (get_mp3_files w) (original_files w)
                                  chapters book (logged st requests)).2
                 = requests ++ tail).
  { apply new_events_app. rewrite Hlog. unfold logged. simpl. by rewrite <- app_assoc. }
  rewrite caught_snd.
  destruct (cut_and_cleanup w (get_mp3_files w) (original_files w) chapters book
              (logged st requests)) as [[b|e] st'] eqn:Hrun; simpl in *.
  - destruct Hcut as (evs & -> & Hev & Hclean).
    exists requests, evs. split; [done |]. split; [done |]. right. by exists b.
  - destruct Hcut as (_ & Hev).
    exists requests, tail. split; [done |]. split; [done |]. by left.
Qed.


(** X17: After a session that returned [True], no input file that may be
    removed is left in the folder, and with several input files no
    [combined_temp.mp3] either. This holds for an input path to which a
    chapter has just been written, too: a chapter file that bears the name
    of an input file is deleted with it. *)
Theorem cleanup_leaves_no_original (w : World) (st : State)
    (Hdone : (process_folder w st).1 = Ok true) :
  let cleanup_file := path_join (folder_path w) combined_file in
  let st' := (process_folder w st).2 in
  (∀ path, path ∈ original_files w → remove_ok w path = true → path ∉ fs st')
  ∧ ((1 < length (get_mp3_files w))%nat → remove_ok w cleanup_file = true →
     cleanup_file ∉ fs st').
Proof.
  intros cleanup_file st'. subst st'.
  destruct (process_folder_outcome w st)
    as (requests & evs & _ & _ & [[Hres _] | (b & Hres & _ & Hclean)]).
  - rewrite Hres in Hdone. discriminate.
  - rewrite Hres in Hdone. injection Hdone as ->. by apply Hclean.
Qed.

Lemma cleanup_leaves_no_original_witness :
  let w := overwriting_world in
  let cleanup_file := path_join (folder_path w) combined_file in
  let st' := (process_folder w (demo_state chapter_named_parts)).2 in
  (∀ path, path ∈ original_files w → remove_ok w path = true → path ∉ fs st')
  ∧ ((1 < length (get_mp3_files w))%nat → remove_ok w cleanup_file = true →
     cleanup_file ∉ fs st').
Proof.
  apply (cleanup_leaves_no_original overwriting_world (demo_state chapter_named_parts)).
  vm_compute. reflexivity.
Defined.

(** A folder that holds the chapter files of an earlier session: the
    files are concatenated, cut again under the same names, and then removed
    as input files; the session returns [True] and leaves nothing. *)
Example second_session_empties_folder :
  let st := demo_state chapter_named_parts in
  let run := process_folder overwriting_world st in
  fs st = {[ lit "/books/mother/01_Intro.mp3"; lit "/books/mother/02_Middle.mp3" ]}
  ∧ run.1 = Ok true
  ∧ Forall (λ cmd, cmd_output cmd ∈ fs st)
      (runs (drop 4 (new_events st run.2)))
  ∧ fs run.2 = ∅.
Proof.
  split; [apply (bool_decide_unpack _); vm_compute; exact I |].
  split; [vm_compute; reflexivity |].
  split; apply (bool_decide_unpack _); vm_compute; exact I.
Qed.

(** X18: All that [process_folder] does to the outside world: requests, ffmpeg
    runs, saved tags, its closing message, and removals of input files;
    only with several input files a manifest is written, and the manifest
    and [combined_temp.mp3] are removed. No other path is ever removed. *)
Theorem process_folder_events (w : World) (st : State) :
  Forall (λ e, is_request e
               ∨ (∃ r, e = EvReport r)
               ∨ session_event w (get_mp3_files w) (original_files w) e)
    (new_events st (process_folder w st).2).
Proof.
  destruct (process_folder_outcome w st)
    as (requests & evs & Hreq & Hev & [[_ ->] | (b & _ & -> & _)]).
  all: repeat (apply Forall_app; split).
  all: try (eapply Forall_impl; [exact Hreq | tauto]).
  all: try (eapply Forall_impl; [exact Hev | tauto]).
  apply Forall_singleton. right. left. by eexists.
Qed.

(** X19: When the search request fails without a response (no connection),
    the session ends with [False] after at most that one request: the
    handler prints the status code of a response that does not exist, and
    the manual search it would go on to is never reached. *)
Theorem connection_failure_ends_session (w : World) (st : State)
    (Hdown : ∀ params, requests_search w params = SearchRequestException false) :
  ∃ requests,
    process_folder w st = (Ok false, logged st requests)
    ∧ (requests = [] ∨ ∃ metadata, requests = [search_request metadata]).
Proof.
  rewrite process_folder_plan. unfold session_plan.
  destruct (get_mp3_files w) as [|first_name rest]; [exists []; by split; [| left] |].
  destruct (get_metadata_from_file w _) as [metadata|]; [| exists []; by split; [| left]].
  case_bool_decide; [exists []; by split; [| left] |].
  destruct (calculate_total_duration w _ _) as [total|]; [| exists []; by split; [| left]].
  unfold resolved_book. rewrite Hdown. simpl.
  eexists. split; [done |]. right. by eexists.
Qed.

Lemma connection_failure_ends_session_witness :
  ∃ requests,
    process_folder offline_world (demo_state ["part1.mp3"])
    = (Ok false, logged (demo_state ["part1.mp3"]) requests)
    ∧ (requests = [] ∨ ∃ metadata, requests = [search_request metadata]).
Proof.
  apply (connection_failure_ends_session offline_world (demo_state ["part1.mp3"])).
  intros params. reflexivity.
Defined.

(** ** The lengths of the input files *)

Section Lengths.

Variable w : World.
Variable lengths : pystr → Q.

Lemma get_metadata_from_file_lengths file_path :
  get_metadata_from_file (with_lengths lengths w) file_path
  = get_metadata_from_file w file_path.
Proof.
  unfold get_metadata_from_file. simpl. by destruct (mutagen_MP3 w file_path).
Qed.

Lemma calculate_total_duration_lengths mp3_files : ∀ acc acc',
  match calculate_total_duration (with_lengths lengths w) mp3_files acc,
        calculate_total_duration w mp3_files acc' with
  | Ok _, Ok _ | Raise _, Raise _ => True
  | _, _ => False
  end.
Proof.
  induction mp3_files as [|f rest IH]; intros acc acc'; simpl; [done |].
  destruct (mutagen_MP3 w (path_join (folder_path w) f)); simpl; [apply IH | done].
Qed.

Lemma tag_file_lengths file_path chapter track_num total_tracks book st :
  tag_file (with_lengths lengths w) file_path chapter track_num total_tracks book st
  = tag_file w file_path chapter track_num total_tracks book st.
Proof.
  rewrite !tag_file_run. unfold tag_events. simpl.
  by destruct (mutagen_MP3 w file_path).
Qed.

Lemma split_by_chapters_lengths input_file chapters book st :
  split_by_chapters (with_lengths lengths w) input_file chapters book st
  = split_by_chapters w input_file chapters book st.
Proof.
  unfold split_by_chapters. 
  assert (Hsweep : ∀ input_path total i n st,
    sweep (with_lengths lengths w) input_path total book i chapters n st
    = sweep w input_path total book i chapters n st).
  { intros input_path total. induction chapters as [|chapter rest IH]; intros i n st0; [done |].
    simpl. unfold mbind, M_bind.
    assert (Hone : split_chapter (with_lengths lengths w) input_path total book i chapter st0
                   = split_chapter w input_path total book i chapter st0).
    { rewrite !split_chapter_run. unfold entry_events, cut_succeeds, planned_cmd, tag_events.
      simpl. 
      destruct (default _ (chapter !! "title")); try done.
      destruct (ffmpeg w _); try done. case_bool_decide; [| done].
      by destruct (mutagen_MP3 w _). }
    rewrite Hone. destruct (split_chapter w _ _ _ _ _ _) as [[counted|e] st1]; [| done].
    apply IH. }
  unfold mbind, M_bind. simpl. by rewrite Hsweep.
Qed.

Lemma remove_originals_lengths originals : ∀ ok st,
  remove_originals (with_lengths lengths w) originals ok st
  = remove_originals w originals ok st.
Proof.
  induction originals as [|path rest IH]; intros ok st; [done |].
  simpl. unfold mbind, M_bind.
  change (os_remove (with_lengths lengths w)) with (os_remove w).
  destruct (try_except _ _ st) as [[ok'|e] st1]; [apply IH | done].
Qed.

Lemma cut_and_cleanup_lengths mp3_files originals chapters book st :
  cut_and_cleanup (with_lengths lengths w) mp3_files originals chapters book st
  = cut_and_cleanup w mp3_files originals chapters book st.
Proof.
  unfold cut_and_cleanup, mbind, M_bind.
  change (combine_mp3_files (with_lengths lengths w)) with (combine_mp3_files w).
  change (os_remove (with_lengths lengths w)) with (os_remove w).
  change (folder_path (with_lengths lengths w)) with (folder_path w).
  destruct ((if bool_decide (1 < length mp3_files)%nat then combine_mp3_files w mp3_files
             else mret (default [] (head mp3_files))) st) as [[combined|e] st1]; [| done].
  rewrite split_by_chapters_lengths.
  destruct (split_by_chapters w combined chapters book st1) as [[[|]|e] st2]; [| done..].
  by rewrite remove_originals_lengths.
Qed.

Lemma session_plan_lengths : session_plan (with_lengths lengths w) = session_plan w.
Proof.
  unfold session_plan.
  change (get_mp3_files (with_lengths lengths w)) with (get_mp3_files w).
  change (folder_path (with_lengths lengths w)) with (folder_path w).
  destruct (get_mp3_files w) as [|first_name rest]; [done |].
  rewrite get_metadata_from_file_lengths.
  destruct (get_metadata_from_file w _) as [metadata|]; [| done].
  case_bool_decide; [done |].
  pose proof (calculate_total_duration_lengths (first_name :: rest) 0 0) as Hsame.
  destruct (calculate_total_duration (with_lengths lengths w) _ _) as [total'|],
    (calculate_total_duration w _ _) as [total|]; try done.
  assert (Hquery : ∀ minutes, search_query (<["lengthMinutes" := minutes]> metadata)
                              = search_query metadata).
  { intros minutes. unfold search_query. by rewrite !lookup_insert_ne. }
  unfold resolved_book, search_request. rewrite !Hquery. 
  change (requests_search (with_lengths lengths w)) with (requests_search w).
  change (search_failed (with_lengths lengths w)) with (search_failed w).
  change (asked (with_lengths lengths w)) with (asked w).
  change (manual_search (with_lengths lengths w)) with (manual_search w).
  change (get_user_choice (with_lengths lengths w)) with (get_user_choice w).
  change (fetched_chapters (with_lengths lengths w)) with (fetched_chapters w).
  done.
Qed.

End Lengths.

(** X20: The lengths of the input files never influence a session.
    [process_folder] adds them up and stores the minutes in the metadata it
    hands to the search, but the query is built from the title, the author
    and the region alone, and nothing else reads them: with any other
    lengths the session issues the same calls and ends in the same state
    with the same result. *)
Theorem file_lengths_never_matter (w : World) (lengths : pystr → Q) (st : State) :
  process_folder (with_lengths lengths w) st = process_folder w st.
Proof.
  rewrite !process_folder_plan, session_plan_lengths.
  destruct (session_plan w) as [requests | requests book chapters]; [done |].
  change (get_mp3_files (with_lengths lengths w)) with (get_mp3_files w).
  change (original_files (with_lengths lengths w)) with (original_files w).
  by rewrite cut_and_cleanup_lengths.
Qed.
